(** * lttnganalyses.core.analysis: the windowing engine

    A shallow embedding of [src/lttnganalyses/core/analysis.py]:
    [TimeRange] with the comparison operators that [functools.total_ordering]
    derives, [AnalysisConfig], and the [Analysis] engine with its range
    gating, keyed periods, refresh interval, window close and dispatch.

    Python objects are records, [None]-able attributes are [option]s, dicts
    are [gmap]s, integers are [Z].  A method of [Analysis] is a command: a
    function from the engine state to either an exception or the new state
    with the calls it made on the outside world (the trace). *)

From Stdlib Require Import ZArith String Ascii List Bool Lia.
From stdpp Require Import base option list gmap strings pretty.

Open Scope Z_scope.

(** ** Python values and exceptions *)

Module Py.

(** The exceptions the engine can raise.  [LoopFuel] is not a Python
    exception: it marks a [while] loop cut short by the model's fuel, and
    [advance_range_fuel] shows that the engine never produces it. *)
Inductive exn := IndexError | TypeError | KeyError | LoopFuel.

Inductive result (A : Type) : Type :=
| Ok (a : A)
| Raise (e : exn).
Arguments Ok {A} a.
Arguments Raise {A} e.

(** Field payloads of an event: integers and strings. *)
Inductive value := VInt (z : Z) | VStr (s : string).

#[global] Instance value_eq_dec : EqDecision value.
Proof. solve_decision. Defined.

(** [str(v)] *)
Definition str (v : value) : string :=
  match v with
  | VInt z => pretty z
  | VStr s => s
  end.

(** Truth value of an [int]-or-[None] attribute: [None] and [0] are false. *)
Definition truthy_int (o : option Z) : bool :=
  match o with
  | Some z => negb (z =? 0)
  | None => false
  end.

(** Truth value of a sequence-or-[None] attribute: [None] and the empty
    sequence are false. *)
Definition truthy_seq {A : Type} (o : option (list A)) : bool :=
  match o with
  | Some (_ :: _) => true
  | _ => false
  end.

(** Truth value of a [str]-or-[None] attribute. *)
Definition truthy_str (o : option string) : bool :=
  match o with
  | Some EmptyString => false
  | Some _ => true
  | None => false
  end.

(** Truth value of a [bool]-or-[None] attribute. *)
Definition truthy_bool (o : option bool) : bool :=
  match o with
  | Some b => b
  | None => false
  end.

(** [x is None] *)
Definition is_none {A : Type} (o : option A) : bool :=
  match o with
  | Some _ => false
  | None => true
  end.

(** [l[i]] for a list: a negative index counts from the end, anything out
    of range raises [IndexError]. *)
Definition index {A : Type} (l : list A) (i : Z) : result A :=
  let n := Z.of_nat (length l) in
  let j := if i <? 0 then i + n else i in
  if (0 <=? j) && (j <? n) then
    match l !! Z.to_nat j with
    | Some x => Ok x
    | None => Raise IndexError
    end
  else Raise IndexError.

(** [a == b] on [int]-or-[None]: never raises. *)
Definition eq (a b : option Z) : bool :=
  match a, b with
  | Some x, Some y => x =? y
  | None, None => true
  | _, _ => false
  end.

(** [a < b] on [int]-or-[None]: Python 3 refuses to order [None]. *)
Definition lt (a b : option Z) : result bool :=
  match a, b with
  | Some x, Some y => Ok (x <? y)
  | _, _ => Raise TypeError
  end.

(** [t > b] for an [int] and an [int]-or-[None]. *)
Definition gt (t : Z) (b : option Z) : result bool :=
  match b with
  | Some y => Ok (t >? y)
  | None => Raise TypeError
  end.

(** [s == o] for a [str] and a [str]-or-[None]. *)
Definition str_eq (s : string) (o : option string) : bool :=
  match o with
  | Some s' => String.eqb s s'
  | None => false
  end.

End Py.

Import Py.

(** ** TimeRange *)

Record TimeRange := mkTimeRange {
  range_begin : option Z;   (* [begin] *)
  range_end : option Z      (* [end] *)
}.

Module TimeRangeOps.

(** [__eq__]: equality of the tuples [(begin, end)]. *)
Definition __eq__ (self other : TimeRange) : bool :=
  Py.eq (range_begin self) (range_begin other)
  && Py.eq (range_end self) (range_end other).

(** [__lt__]: [<] of the tuples [(begin, end)].  A tuple comparison looks
    for the first position where the items differ (by [==]) and orders
    those two items; equal tuples are not less. *)
Definition __lt__ (self other : TimeRange) : result bool :=
  if negb (Py.eq (range_begin self) (range_begin other)) then
    Py.lt (range_begin self) (range_begin other)
  else if negb (Py.eq (range_end self) (range_end other)) then
    Py.lt (range_end self) (range_end other)
  else Ok false.

(** The operators [functools.total_ordering] derives from [__lt__] and
    [__eq__]: [a <= b] is [a < b or a == b], [a > b] is
    [not a < b and a != b], [a >= b] is [not a < b]. *)
Definition __le__ (self other : TimeRange) : result bool :=
  match __lt__ self other with
  | Ok r => Ok (r || __eq__ self other)
  | Raise e => Raise e
  end.

Definition __gt__ (self other : TimeRange) : result bool :=
  match __lt__ self other with
  | Ok r => Ok (negb r && negb (__eq__ self other))
  | Raise e => Raise e
  end.

Definition __ge__ (self other : TimeRange) : result bool :=
  match __lt__ self other with
  | Ok r => Ok (negb r)
  | Raise e => Raise e
  end.

(** The order the comparisons are meant to implement on ranges whose
    bounds are all numbers: lexicographic on [(begin, end)]. *)
Definition lex_lt (b1 e1 b2 e2 : Z) : Prop :=
  b1 < b2 \/ (b1 = b2 /\ e1 < e2).

End TimeRangeOps.

(** ** AnalysisConfig *)

(** The options the engine reads.  [min_duration], [max_duration],
    [proc_list], [tid_list] and [cpu_list] are only read by the filter
    predicates and by subclasses, and are left out. *)
Record AnalysisConfig := mkAnalysisConfig {
  refresh_period : option Z;
  period_begin_ev_name : option string;
  period_end_ev_name : option string;
  period_begin_key_fields : option (list string);
  period_end_key_fields : option (list string);
  period_key_value : option (list string);
  range_ts : option (list TimeRange);
  current_ts : option Z;
  accumulate : option bool
}.

(** [AnalysisConfig.__init__]: everything starts as [None]. *)
Definition AnalysisConfig_init : AnalysisConfig :=
  mkAnalysisConfig None None None None None None None None None.

Definition set_current_ts (c : option Z) (cf : AnalysisConfig) : AnalysisConfig :=
  mkAnalysisConfig (refresh_period cf) (period_begin_ev_name cf)
    (period_end_ev_name cf) (period_begin_key_fields cf)
    (period_end_key_fields cf) (period_key_value cf) (range_ts cf) c
    (accumulate cf).

(** ** Events, callbacks and the trace *)

Record Event := mkEvent {
  timestamp : Z;
  name : string;
  fields : gmap string value   (* [ev[field]]; a missing key raises [KeyError] *)
}.

(** Callbacks are opaque to the engine: a callback is known by an identifier
    and a call to it is recorded in the trace. *)
Definition callback := nat.

Inductive action :=
| CallReset                                   (* [self.reset()] *)
| CallEndPeriodCb                             (* [self._end_period_cb()] *)
| CallNotification (cb : callback) (nm : string) (begin_ns end_ns : option Z)
                                              (* [cb(begin_ns=.., end_ns=..)] *)
| CallEventCb (cb : callback) (ev : Event).   (* [self._cbs[..](ev)] *)

(** ** Analysis *)

Record Analysis := mkAnalysis {
  _conf : AnalysisConfig;
  _period_key : option (list value);
  _period_start_ts : option Z;
  _last_event_ts : option Z;
  _notification_cbs : gmap string (list callback);
  _cbs : gmap string callback;
  started : bool;
  ended : bool
}.

(** [Analysis.__init__(state, conf)]; the [state] object is never used by
    the engine and is not modelled. *)
Definition Analysis_init (conf : AnalysisConfig) : Analysis :=
  mkAnalysis conf None None None ∅ ∅ false false.

Definition TICK_CB : string := "tick".

Section Setters.

Definition with_conf (f : AnalysisConfig -> AnalysisConfig) (s : Analysis) : Analysis :=
  mkAnalysis (f (_conf s)) (_period_key s) (_period_start_ts s)
    (_last_event_ts s) (_notification_cbs s) (_cbs s) (started s) (ended s).

Definition with_period_key (k : option (list value)) (s : Analysis) : Analysis :=
  mkAnalysis (_conf s) k (_period_start_ts s) (_last_event_ts s)
    (_notification_cbs s) (_cbs s) (started s) (ended s).

Definition with_period_start_ts (t : option Z) (s : Analysis) : Analysis :=
  mkAnalysis (_conf s) (_period_key s) t (_last_event_ts s)
    (_notification_cbs s) (_cbs s) (started s) (ended s).

Definition with_last_event_ts (t : option Z) (s : Analysis) : Analysis :=
  mkAnalysis (_conf s) (_period_key s) (_period_start_ts s) t
    (_notification_cbs s) (_cbs s) (started s) (ended s).

Definition with_notification_cbs (m : gmap string (list callback)) (s : Analysis) : Analysis :=
  mkAnalysis (_conf s) (_period_key s) (_period_start_ts s)
    (_last_event_ts s) m (_cbs s) (started s) (ended s).

Definition with_cbs (m : gmap string callback) (s : Analysis) : Analysis :=
  mkAnalysis (_conf s) (_period_key s) (_period_start_ts s)
    (_last_event_ts s) (_notification_cbs s) m (started s) (ended s).

Definition with_started (b : bool) (s : Analysis) : Analysis :=
  mkAnalysis (_conf s) (_period_key s) (_period_start_ts s)
    (_last_event_ts s) (_notification_cbs s) (_cbs s) b (ended s).

Definition with_ended (b : bool) (s : Analysis) : Analysis :=
  mkAnalysis (_conf s) (_period_key s) (_period_start_ts s)
    (_last_event_ts s) (_notification_cbs s) (_cbs s) (started s) b.

End Setters.

(** ** Commands *)

(** A method body: it raises, or it returns the new state and the calls it
    made, oldest first. *)
Definition cmd : Type := Analysis -> result (Analysis * list action).

Definition skip : cmd := fun s => Ok (s, []).

Definition modify (f : Analysis -> Analysis) : cmd := fun s => Ok (f s, []).

Definition emit (t : list action) : cmd := fun s => Ok (s, t).

Definition seq (c1 c2 : cmd) : cmd := fun s =>
  match c1 s with
  | Ok (s1, t1) =>
      match c2 s1 with
      | Ok (s2, t2) => Ok (s2, t1 ++ t2)
      | Raise e => Raise e
      end
  | Raise e => Raise e
  end.

Notation "c1 >>> c2" := (seq c1 c2) (at level 100, c2 at level 200, right associativity).

(** [if b: c] *)
Definition when (b : Analysis -> bool) (c : cmd) : cmd := fun s =>
  if b s then c s else skip s.

(** ** Notifications and window close *)

(** [register_notification_cbs(cbs)]: each name of [cbs] gets its callback
    appended to the subscribers of that name. *)
Definition register_notification_cbs (new : gmap string callback) : cmd :=
  modify (fun s =>
    with_notification_cbs
      (merge (fun old c =>
                match c with
                | Some cb => Some (default [] old ++ [cb])
                | None => old
                end) (_notification_cbs s) new) s).

(** [_send_notification_cb(name, begin_ns=.., end_ns=..)] *)
Definition _send_notification_cb (nm : string) (begin_ns end_ns : option Z) : cmd :=
  fun s =>
    match _notification_cbs s !! nm with
    | Some subscribers =>
        emit (map (fun cb => CallNotification cb nm begin_ns end_ns) subscribers) s
    | None => skip s
    end.

(** [reset()]: the hook of the concrete analysis.  The body in the base
    class only raises [NotImplementedError]; every analysis overrides it, and
    the model records the call. *)
Definition reset : cmd := emit [CallReset].

(** [_end_period_cb()]: the finalize hook, a no-op unless overridden. *)
Definition _end_period_cb : cmd := emit [CallEndPeriodCb].

Definition _end_period : cmd :=
  _end_period_cb >>>
  (fun s => _send_notification_cb TICK_CB (_period_start_ts s) (_last_event_ts s) s).

Definition _begin_period (period_key : list value) (ts : Z) : cmd :=
  modify (with_period_key (Some period_key)) >>>
  modify (with_period_start_ts (Some ts)) >>>
  reset.

(** [end()] *)
Definition end_ : cmd :=
  when (fun s => truthy_int (_period_start_ts s)) _end_period.

(** ** Dispatch *)

Definition _register_cbs (m : gmap string callback) : cmd := modify (with_cbs m).

(** [name in self._cbs] *)
Definition has_cb (key : string) (s : Analysis) : bool :=
  negb (is_none (_cbs s !! key)).

(** [self._cbs[key](ev)] *)
Definition call_cb (key : string) (ev : Event) : cmd := fun s =>
  match _cbs s !! key with
  | Some cb => emit [CallEventCb cb ev] s
  | None => Raise KeyError
  end.

Definition _process_event_cb (ev : Event) : cmd := fun s =>
  if has_cb (name ev) s then
    call_cb (name ev) ev s
  else if has_cb "syscall_entry" s
          && (String.prefix "sys_" (name ev)
              || String.prefix "syscall_entry_" (name ev)) then
    call_cb "syscall_entry" ev s
  else if has_cb "syscall_exit" s
          && (String.prefix "exit_syscall" (name ev)
              || String.prefix "syscall_exit_" (name ev)) then
    call_cb "syscall_exit" ev s
  else skip s.

(** ** Keyed periods *)

(** The loop of [_get_period_event_key]: the values of the fields in order,
    or [None] at the first field the event does not have ([KeyError]). *)
Fixpoint key_values (ev : Event) (key_fields : list string) : option (list value) :=
  match key_fields with
  | [] => Some []
  | field :: rest =>
      match fields ev !! field with
      | Some v =>
          match key_values ev rest with
          | Some vs => Some (v :: vs)
          | None => None
          end
      | None => None
      end
  end.

Definition _get_period_event_key (ev : Event) (key_fields : option (list string))
    : option (list value) :=
  if negb (truthy_seq key_fields) then None
  else key_values ev (default [] key_fields).

Definition _handle_period_event (ev : Event) : cmd := fun s =>
  if negb (str_eq (name ev) (period_begin_ev_name (_conf s)))
     && negb (str_eq (name ev) (period_end_ev_name (_conf s))) then
    skip s
  else if truthy_seq (_period_key s) then
    let period_key := _get_period_event_key ev (period_end_key_fields (_conf s)) in
    if negb (truthy_seq period_key) then
      skip s
    else if bool_decide (period_key = _period_key s) then
      if truthy_str (period_end_ev_name (_conf s)) then
        if str_eq (name ev) (period_end_ev_name (_conf s)) then
          (_end_period >>>
           modify (with_period_key None) >>>
           modify (with_period_start_ts None)) s
        else skip s
      else if str_eq (name ev) (period_begin_ev_name (_conf s)) then
        (_end_period >>>
         _begin_period (default [] period_key) (timestamp ev)) s
      else skip s
    else skip s
  else if str_eq (name ev) (period_begin_ev_name (_conf s)) then
    let period_key := _get_period_event_key ev (period_begin_key_fields (_conf s)) in
    if negb (truthy_seq period_key) then
      skip s
    else if truthy_seq (period_key_value (_conf s))
            && negb (bool_decide (period_key_value (_conf s)
                                  = Some (map str (default [] period_key)))) then
      skip s
    else _begin_period (default [] period_key) (timestamp ev) s
  else skip s.

(** ** Refresh interval *)

Definition _check_refresh (ev : Event) : cmd := fun s =>
  if negb (truthy_int (_period_start_ts s)) then
    modify (with_period_start_ts (Some (timestamp ev))) s
  else
    match _period_start_ts s, refresh_period (_conf s) with
    | Some start, Some period =>
        if timestamp ev >=? start + period then
          (_end_period >>>
           modify (with_period_start_ts (Some (timestamp ev)))) s
        else skip s
    | _, _ => Raise TypeError
    end.

(** ** Range gating *)

(** The [while] loop of [_check_analysis] on its two variables, the index
    [self._conf.current_ts] and the local [range_ts]:
    [while range_ts is not None and ev.timestamp > range_ts.end]. *)
Fixpoint advance_range (fuel : nat) (ranges : list TimeRange) (ts : Z)
    (cur : Z) (range : option TimeRange) : result (Z * option TimeRange) :=
  match range with
  | None => Ok (cur, None)
  | Some r =>
      match Py.gt ts (range_end r) with
      | Raise e => Raise e
      | Ok false => Ok (cur, range)
      | Ok true =>
          match fuel with
          | O => Raise LoopFuel
          | S fuel' =>
              let cur' := cur + 1 in
              if Z.of_nat (length ranges) >? cur' then
                match Py.index ranges cur' with
                | Ok r' => advance_range fuel' ranges ts cur' (Some r')
                | Raise e => Raise e
                end
              else advance_range fuel' ranges ts cur' None
          end
      end
  end.

(** What follows the loop, with the loop's [range_ts]. *)
Definition after_advance (ev : Event) (range : option TimeRange) : cmd :=
  when (fun s => negb (truthy_bool (accumulate (_conf s))))
    (_end_period >>>
     modify (with_period_start_ts None) >>>
     reset) >>>
  (fun s =>
     match range with
     | None => modify (with_ended true) s
     | Some r =>
         match range_begin r with
         | Some b =>
             if timestamp ev <? b then modify (with_started false) s
             else if negb (truthy_bool (accumulate (_conf s))) then
               modify (with_period_start_ts (Some (timestamp ev))) s
             else skip s
         | None =>
             if negb (truthy_bool (accumulate (_conf s))) then
               modify (with_period_start_ts (Some (timestamp ev))) s
             else skip s
         end
     end).

Definition _check_analysis (ev : Event) : cmd := fun s =>
  if negb (truthy_seq (range_ts (_conf s))) then skip s
  else
    let ranges := default [] (range_ts (_conf s)) in
    let cur := default 0 (current_ts (_conf s)) in
    let s := with_conf (set_current_ts (Some cur)) s in
    match Py.index ranges cur with
    | Raise e => Raise e
    | Ok range =>
        if started s then
          match range_end range with
          | None => skip s
          | Some e =>
              if timestamp ev >? e then
                match advance_range (Z.to_nat (Z.of_nat (length ranges) - cur))
                        ranges (timestamp ev) cur (Some range) with
                | Raise e => Raise e
                | Ok (cur', range') =>
                    (modify (with_conf (set_current_ts (Some cur'))) >>>
                     after_advance ev range') s
                end
              else skip s
          end
        else
          match range_begin range with
          | None => skip s
          | Some b =>
              if timestamp ev >=? b then
                (modify (with_started true) >>>
                 when (fun s => is_none (_period_start_ts s))
                   (modify (with_period_start_ts (Some (timestamp ev))) >>>
                    reset)) s
              else skip s
          end
    end.

(** ** process_event *)

(** [not self._conf.range_ts or self._conf.range_ts[0].begin is None] *)
Definition no_first_begin (cf : AnalysisConfig) : bool :=
  match range_ts cf with
  | Some (r :: _) => is_none (range_begin r)
  | _ => true
  end.

(** The part of [process_event] before the activation modes: the timestamp
    bookkeeping, the implicit window and the range gating. *)
Definition gating (ev : Event) : cmd :=
  modify (with_last_event_ts (Some (timestamp ev))) >>>
  when (fun s => is_none (current_ts (_conf s)) && no_first_begin (_conf s))
    (modify (with_period_start_ts (Some (timestamp ev))) >>>
     modify (with_started true)) >>>
  _check_analysis ev.

(** The activation modes: period events take priority over the refresh
    period. *)
Definition modes (ev : Event) : cmd := fun s =>
  if negb (started s) || ended s then skip s
  else if negb (is_none (period_begin_ev_name (_conf s))) then
    _handle_period_event ev s
  else if negb (is_none (refresh_period (_conf s))) then
    _check_refresh ev s
  else skip s.

Definition process_event (ev : Event) : cmd :=
  gating ev >>> modes ev.

(** Feeding a stream of events to the engine, one [process_event] each. *)
Fixpoint run (evs : list Event) : cmd :=
  match evs with
  | [] => skip
  | ev :: rest => process_event ev >>> run rest
  end.

(** A call of a per-event-name callback. *)
Definition is_event_cb (a : action) : bool :=
  match a with
  | CallEventCb _ _ => true
  | _ => false
  end.

(** The notifications one window close sends: a call per [tick] subscriber,
    in registration order, with the window's start and the last timestamp. *)
Definition tick_calls (s : Analysis) : list action :=
  map (fun cb => CallNotification cb TICK_CB (_period_start_ts s) (_last_event_ts s))
      (default [] (_notification_cbs s !! TICK_CB)).

(** [process_event] without its activation modes, over a stream. *)
Fixpoint run_gating (evs : list Event) : cmd :=
  match evs with
  | [] => skip
  | ev :: rest => gating ev >>> run_gating rest
  end.

(** ** Vocabulary of the statements *)

(** Every call a command makes satisfies [P]. *)
Definition emits (P : action -> Prop) (c : cmd) : Prop :=
  forall s s' t, c s = Ok (s', t) -> Forall P t.

(** A call that is not a per-event-name callback. *)
Definition engine_call (a : action) : Prop := is_event_cb a = false.

(** What holds of every engine that has reached [ended]: the range list is
    not empty and the index into it has run past its end. *)
Definition ended_inv (s : Analysis) : Prop :=
  ended s = true ->
  exists ranges c,
    range_ts (_conf s) = Some ranges /\ ranges <> [] /\
    current_ts (_conf s) = Some c /\ Z.of_nat (length ranges) <= c.

(** The key fields [_handle_period_event] reads on an event: those of the end
    marker while a period is open, those of the begin marker otherwise. *)
Definition consulted_key_fields (s : Analysis) : option (list string) :=
  if truthy_seq (_period_key s) then period_end_key_fields (_conf s)
  else period_begin_key_fields (_conf s).

(** The state a keyed period is closed into. *)
Definition closed (s : Analysis) : Analysis :=
  with_period_start_ts None (with_period_key None s).

(** The state a keyed period with key [k] is opened into at [ts]. *)
Definition opened (k : list value) (ts : Z) (s : Analysis) : Analysis :=
  with_period_start_ts (Some ts) (with_period_key (Some k) s).

(** What the activation modes leave alone: the configuration, the flags
    and the registries. *)
Record modes_frame (s s' : Analysis) : Prop := mkModesFrame {
  frame_conf : _conf s' = _conf s;
  frame_started : started s' = started s;
  frame_ended : ended s' = ended s;
  frame_cbs : _cbs s' = _cbs s;
  frame_notification_cbs : _notification_cbs s' = _notification_cbs s;
  frame_last_event_ts : _last_event_ts s' = _last_event_ts s
}.

(** What the gating leaves alone: every option but the index into the range
    list, the open key and the registries. *)
Record gating_frame (s s' : Analysis) : Prop := mkGatingFrame {
  gframe_conf : set_current_ts None (_conf s') = set_current_ts None (_conf s);
  gframe_period_key : _period_key s' = _period_key s;
  gframe_cbs : _cbs s' = _cbs s;
  gframe_notification_cbs : _notification_cbs s' = _notification_cbs s
}.

(** The callback the dispatch rule selects for an event name, as the
    specification words it: the exact name first; otherwise the
    [syscall_entry] handler for a name with a syscall-entry prefix; otherwise
    the [syscall_exit] handler for a name with a syscall-exit prefix. *)
Definition spec_matching_cb (cbs : gmap string callback) (nm : string)
    : option callback :=
  match cbs !! nm with
  | Some cb => Some cb
  | None =>
      let entry :=
        if String.prefix "sys_" nm || String.prefix "syscall_entry_" nm
        then cbs !! "syscall_entry" else None in
      match entry with
      | Some cb => Some cb
      | None =>
          if String.prefix "exit_syscall" nm || String.prefix "syscall_exit_" nm
          then cbs !! "syscall_exit" else None
      end
  end.

(** ** Example inputs *)

Definition ev_at (t : Z) : Event := mkEvent t "sched_switch" ∅.

(** A marker event [nm] whose field [k] holds [v]. *)
Definition marker (nm : string) (t : Z) (v : string) : Event :=
  mkEvent t nm {[ "k" := VStr v ]}.

(** An engine with one [tick] subscriber, callback 7. *)
Definition subscribed (conf : AnalysisConfig) : Analysis :=
  with_notification_cbs {[ TICK_CB := [7%nat] ]} (Analysis_init conf).

Definition two_ranges : list TimeRange :=
  [mkTimeRange (Some 10) (Some 20); mkTimeRange (Some 30) (Some 40)].

Definition conf_ranges (acc : option bool) : AnalysisConfig :=
  mkAnalysisConfig None None None None None None (Some two_ranges) None acc.

Definition conf_refresh (p : Z) : AnalysisConfig :=
  mkAnalysisConfig (Some p) None None None None None None None None.

Definition conf_keyed (end_name : option string) (bk ek : option (list string))
    : AnalysisConfig :=
  mkAnalysisConfig None (Some "begin") end_name bk ek None None None None.

(** An engine in which a period with key [("A",)] is open since 1, the
    key being read from the field [k] on both markers. *)
Definition open_A (end_name : option string) : Analysis :=
  opened [VStr "A"] 1
    (subscribed (conf_keyed end_name (Some ["k"]) (Some ["k"]))).

(** ** Filters *)

(** The filter options of [AnalysisConfig], which the window engine itself
    never reads: include-lists of command names, thread ids and CPU ids. *)
Record FilterConfig := mkFilterConfig {
  proc_list : option (list string);
  tid_list : option (list Z);
  cpu_list : option (list Z)
}.

(** A process as [_filter_process] sees it; [None] stands for no process
    object. *)
Record Process := mkProcess {
  comm : string;
  tid : Z
}.

Definition _filter_process (cf : FilterConfig) (proc : option Process) : bool :=
  match proc with
  | None => true
  | Some p =>
      if truthy_seq (proc_list cf)
         && negb (bool_decide (comm p ∈ default [] (proc_list cf))) then false
      else if truthy_seq (tid_list cf)
              && negb (bool_decide (tid p ∈ default [] (tid_list cf))) then false
      else true
  end.

Definition _filter_cpu (cf : FilterConfig) (cpu : Z) : bool :=
  negb (truthy_seq (cpu_list cf)
        && negb (bool_decide (cpu ∈ default [] (cpu_list cf)))).

(** ** TimeRange.__repr__ *)

(** [str(x)] of a bound. *)
Definition str_bound (o : option Z) : string :=
  match o with
  | Some z => pretty z
  | None => "None"
  end.

Definition TimeRange__repr__ (self : TimeRange) : string :=
  "[" +:+ str_bound (range_begin self) +:+ "," +:+ str_bound (range_end self) +:+ "]".

(** ** More vocabulary *)

Definition is_reset (a : action) : bool :=
  match a with
  | CallReset => true
  | _ => false
  end.

(** The number of [reset] calls in a trace. *)
Definition resets (t : list action) : nat := length (filter (fun a => is_reset a = true) t).

Definition is_close (a : action) : bool :=
  match a with
  | CallEndPeriodCb => true
  | _ => false
  end.

(** The number of window closes in a trace. *)
Definition closes (t : list action) : nat := length (filter (fun a => is_close a = true) t).

(** A notification is a tick whose end is [ts]. *)
Definition tick_ending_at (ts : Z) (a : action) : Prop :=
  match a with
  | CallNotification _ nm _ end_ns => nm = TICK_CB /\ end_ns = Some ts
  | _ => True
  end.

(** The open key is [None] or a tuple with an item. *)
Definition key_inv (s : Analysis) : Prop :=
  _period_key s = None \/ truthy_seq (_period_key s) = true.

(** The index into the range list has not moved back from [s] to [s']. *)
Definition index_not_back (s s' : Analysis) : Prop :=
  match current_ts (_conf s), current_ts (_conf s') with
  | Some c, Some c' => c <= c'
  | None, Some c' => 0 <= c'
  | None, None => True
  | Some _, None => False
  end.

(** [c], run on a state that satisfies [I], only makes calls that satisfy [P]
    and leaves a state that satisfies [I]. *)
Definition emits_under (I : Analysis -> Prop) (P : action -> Prop) (c : cmd) : Prop :=
  forall s s' t, I s -> c s = Ok (s', t) -> Forall P t /\ I s'.

(** The last event seen is at [ts]. *)
Definition last_at (ts : Z) (s : Analysis) : Prop := _last_event_ts s = Some ts.

(** The [reset] calls an engine in accumulate mode still owes: one while no
    period has ever been opened. *)
Definition reset_budget (s : Analysis) : nat :=
  if is_none (_period_start_ts s) then 1%nat else 0%nat.

(** A started engine over the range [10,20] followed by a range from 30
    without an end, the index on the first range. *)
Definition started_before_open_range : Analysis :=
  with_started true
    (Analysis_init
       (mkAnalysisConfig None None None None None None
          (Some [mkTimeRange (Some 10) (Some 20); mkTimeRange (Some 30) None])
          (Some 0) None)).

(** A character of the decimal rendering of an integer. *)
Definition numeric_char (c : Ascii.ascii) : bool :=
  match c with
  | "0" | "1" | "2" | "3" | "4" | "5" | "6" | "7" | "8" | "9" | "-" => true
  | _ => false
  end%char.

(** A string of such characters only. *)
Fixpoint numeric (s : string) : bool :=
  match s with
  | EmptyString => true
  | String c rest => numeric_char c && numeric rest
  end.

(** A string without a comma. *)
Fixpoint comma_free (s : string) : bool :=
  match s with
  | EmptyString => true
  | String c rest => negb (Ascii.eqb c ",") && comma_free rest
  end.

(** * Properties *)

(** ** Python primitives *)

Lemma index_inv {A : Type} (l : list A) (i : Z) (x : A) :
  Py.index l i = Ok x ->
  - Z.of_nat (length l) <= i < Z.of_nat (length l).
Proof.
  unfold Py.index. intros H.
  destruct (i <? 0) eqn:Hneg;
    destruct ((0 <=? _) && (_ <? _)) eqn:Hin; try discriminate;
    apply andb_true_iff in Hin as [H0 H1]; lia.
Qed.

Lemma index_past_end {A : Type} (l : list A) (i : Z) :
  Z.of_nat (length l) <= i -> Py.index l i = Raise IndexError.
Proof.
  intros Hi. unfold Py.index.
  destruct (i <? 0) eqn:Hneg; [lia|].
  destruct ((0 <=? i) && (i <? _)) eqn:Hin; [|reflexivity].
  apply andb_true_iff in Hin as [_ H1]. lia.
Qed.

Lemma truthy_seq_Some {A : Type} (o : option (list A)) :
  truthy_seq o = true -> exists x l, o = Some (x :: l).
Proof. destruct o as [[|x l]|]; simpl; try discriminate. eauto. Qed.

(** ** The loop of the range gating *)

(** The fuel [_check_analysis] gives the loop is enough: the loop is left by
    its own condition, never by the fuel. *)
Lemma advance_range_fuel (ranges : list TimeRange) (ts : Z) :
  forall (fuel : nat) (cur : Z) (range : option TimeRange),
    (range = None \/
     (cur < Z.of_nat (length ranges) /\
      Z.of_nat (length ranges) - cur <= Z.of_nat fuel)) ->
    advance_range fuel ranges ts cur range <> Raise LoopFuel.
Proof.
  induction fuel as [|fuel IH]; intros cur range Hr;
    destruct range as [r|]; simpl; try discriminate;
    destruct (Py.gt ts (range_end r)) as [[|]|e] eqn:Hgt; try discriminate.
  - destruct Hr as [?|[? ?]]; [discriminate|lia].
  - unfold Py.gt in Hgt. destruct (range_end r); congruence.
  - destruct Hr as [?|[Hlt Hfuel]]; [discriminate|].
    destruct (Z.of_nat (length ranges) >? cur + 1) eqn:Hlen.
    + destruct (Py.index ranges (cur + 1)) as [r'|e] eqn:Hidx.
      * apply IH. right. lia.
      * unfold Py.index in Hidx.
        destruct (_ && _); [destruct (ranges !! _)|]; congruence.
    + apply IH. now left.
  - unfold Py.gt in Hgt. destruct (range_end r); congruence.
Qed.

(** When the loop runs off the list, the index it leaves is past the end. *)
Lemma advance_range_exhausted (ranges : list TimeRange) (ts : Z) :
  forall (fuel : nat) (cur cur' : Z) (r : TimeRange),
    cur < Z.of_nat (length ranges) ->
    advance_range fuel ranges ts cur (Some r) = Ok (cur', None) ->
    Z.of_nat (length ranges) <= cur'.
Proof.
  induction fuel as [|fuel IH]; intros cur cur' r Hcur; simpl;
    destruct (Py.gt ts (range_end r)) as [[|]|e]; try discriminate.
  destruct (Z.of_nat (length ranges) >? cur + 1) eqn:Hlen.
  - destruct (Py.index ranges (cur + 1)) as [r'|e]; [|discriminate].
    apply IH. lia.
  - destruct fuel; simpl; intros [= <-]; lia.
Qed.

(** ** Commands *)

Lemma _end_period_eq (s : Analysis) :
  _end_period s = Ok (s, CallEndPeriodCb :: tick_calls s).
Proof.
  unfold _end_period, seq, _end_period_cb, _send_notification_cb, emit, skip,
    tick_calls. simpl.
  destruct (_notification_cbs s !! TICK_CB); reflexivity.
Qed.

Lemma _begin_period_eq (k : list value) (ts : Z) (s : Analysis) :
  _begin_period k ts s = Ok (opened k ts s, [CallReset]).
Proof. reflexivity. Qed.

Lemma seq_Ok (c1 c2 : cmd) (s s' : Analysis) (t : list action) :
  (c1 >>> c2) s = Ok (s', t) ->
  exists s1 t1 t2, c1 s = Ok (s1, t1) /\ c2 s1 = Ok (s', t2) /\ t = t1 ++ t2.
Proof.
  unfold seq. destruct (c1 s) as [[s1 t1]|e] eqn:E1; [|discriminate].
  destruct (c2 s1) as [[s2 t2]|e] eqn:E2; [|discriminate].
  intros [= <- <-]. exists s1, t1, t2. auto.
Qed.

Lemma emits_skip (P : action -> Prop) : emits P skip.
Proof. intros s s' t [= <- <-]. constructor. Qed.

Lemma emits_modify (P : action -> Prop) (f : Analysis -> Analysis) : emits P (modify f).
Proof. intros s s' t [= <- <-]. constructor. Qed.

Lemma emits_emit (P : action -> Prop) (t : list action) : Forall P t -> emits P (emit t).
Proof. intros Ht s s' t' [= <- <-]. exact Ht. Qed.

Lemma emits_seq (P : action -> Prop) (c1 c2 : cmd) :
  emits P c1 -> emits P c2 -> emits P (c1 >>> c2).
Proof.
  intros H1 H2 s s' t H.
  apply seq_Ok in H as (s1 & t1 & t2 & E1 & E2 & ->).
  apply Forall_app; split; [eapply H1 | eapply H2]; eassumption.
Qed.

Lemma emits_when (P : action -> Prop) (b : Analysis -> bool) (c : cmd) :
  emits P c -> emits P (when b c).
Proof.
  intros Hc s s' t. unfold when. destruct (b s); [apply Hc | apply emits_skip].
Qed.

Lemma emits_reset : emits engine_call reset.
Proof. apply emits_emit. repeat constructor. Qed.

Lemma emits__end_period : emits engine_call _end_period.
Proof.
  intros s s' t. rewrite _end_period_eq. intros [= <- <-].
  constructor; [reflexivity|].
  unfold tick_calls. apply Forall_map, Forall_forall. reflexivity.
Qed.

Lemma emits__begin_period (k : list value) (ts : Z) : emits engine_call (_begin_period k ts).
Proof. intros s s' t. rewrite _begin_period_eq. intros [= <- <-]. repeat constructor. Qed.

Create HintDb emits.
#[local] Hint Resolve emits_skip emits_modify emits_seq emits_when emits_reset
  emits__end_period emits__begin_period : emits.

(** From a run of [c] in the context to the statement that [c] only makes
    engine calls, which the hint database then settles. *)
Ltac by_emits :=
  match goal with
  | H : ?c ?s = Ok (?s', ?t) |- Forall engine_call ?t =>
      refine ((_ : emits engine_call c) s s' t H); solve [auto 10 with emits]
  end.

(** Unfolds the command combinators in a hypothesis that runs one branch of a
    method, and reads the result off. *)
Ltac run_branch H :=
  unfold seq, when, modify, emit, skip, reset in H;
  rewrite ?_end_period_eq, ?_begin_period_eq in H;
  simpl in H;
  rewrite ?_end_period_eq, ?_begin_period_eq in H;
  simpl in H.

(** ** Keyed periods *)

Lemma key_values_missing (ev : Event) (key_fields : list string) (f : string) :
  In f key_fields -> fields ev !! f = None -> key_values ev key_fields = None.
Proof.
  induction key_fields as [|g rest IH]; simpl; [tauto|].
  intros [->|Hin] Hf.
  - now rewrite Hf.
  - destruct (fields ev !! g); [|reflexivity]. now rewrite IH.
Qed.

(** An extracted key is never the empty tuple. *)
Lemma _get_period_event_key_truthy (ev : Event) (kf : option (list string)) :
  truthy_seq (_get_period_event_key ev kf)
  = negb (is_none (_get_period_event_key ev kf)).
Proof.
  unfold _get_period_event_key.
  destruct kf as [[|g rest]|]; simpl; try reflexivity.
  destruct (fields ev !! g); [|reflexivity].
  destruct (key_values ev rest); reflexivity.
Qed.

Lemma _get_period_event_key_missing (ev : Event) (kf : option (list string)) (f : string) :
  In f (default [] kf) -> fields ev !! f = None ->
  _get_period_event_key ev kf = None.
Proof.
  intros Hin Hf. unfold _get_period_event_key.
  destruct (truthy_seq kf); simpl; [|reflexivity].
  eapply key_values_missing; eassumption.
Qed.

(** The keyed-period machine only touches the key and the start of the
    period. *)
Lemma _handle_period_event_frame (ev : Event) (s s' : Analysis) (t : list action) :
  _handle_period_event ev s = Ok (s', t) -> modes_frame s s'.
Proof.
  unfold _handle_period_event. intros H.
  repeat case_match; run_branch H; simplify_eq; now constructor.
Qed.

Lemma emits__handle_period_event (ev : Event) : emits engine_call (_handle_period_event ev).
Proof.
  intros s s' t. unfold _handle_period_event. intros H.
  repeat case_match; by_emits.
Qed.

(** While no period is open and the begin marker has no key fields, the
    machine ignores every event. *)
Lemma _handle_period_event_no_key_fields (ev : Event) (s : Analysis) :
  truthy_seq (_period_key s) = false ->
  truthy_seq (period_begin_key_fields (_conf s)) = false ->
  _handle_period_event ev s = Ok (s, []).
Proof.
  intros Hidle Hkf. unfold _handle_period_event, _get_period_event_key.
  rewrite Hidle, Hkf. simpl.
  repeat case_match; reflexivity.
Qed.

(** ** Refresh interval *)

Lemma _check_refresh_frame (ev : Event) (s s' : Analysis) (t : list action) :
  _check_refresh ev s = Ok (s', t) -> modes_frame s s'.
Proof.
  unfold _check_refresh. intros H.
  repeat case_match; run_branch H; simplify_eq; now constructor.
Qed.

Lemma emits__check_refresh (ev : Event) : emits engine_call (_check_refresh ev).
Proof.
  intros s s' t. unfold _check_refresh. intros H.
  repeat case_match; try discriminate; by_emits.
Qed.

Lemma modes_modes_frame (ev : Event) (s s' : Analysis) (t : list action) :
  modes ev s = Ok (s', t) -> modes_frame s s'.
Proof.
  unfold modes. intros H. repeat case_match.
  - run_branch H. simplify_eq. now constructor.
  - eapply _handle_period_event_frame; eassumption.
  - eapply _check_refresh_frame; eassumption.
  - run_branch H. simplify_eq. now constructor.
Qed.

Lemma emits_modes (ev : Event) : emits engine_call (modes ev).
Proof.
  intros s s' t. unfold modes. intros H.
  pose proof (emits__handle_period_event ev).
  pose proof (emits__check_refresh ev).
  repeat case_match; by_emits.
Qed.

(** ** Range gating *)

Lemma after_advance_frame (ev : Event) (range : option TimeRange)
    (s s' : Analysis) (t : list action) :
  after_advance ev range s = Ok (s', t) -> gating_frame s s'.
Proof.
  unfold after_advance. intros H.
  run_branch H. repeat case_match; run_branch H; simplify_eq; now constructor.
Qed.

Lemma emits_after_advance (ev : Event) (range : option TimeRange) :
  emits engine_call (after_advance ev range).
Proof.
  unfold after_advance. apply emits_seq; [auto 10 with emits|].
  intros s s' t H. repeat case_match; by_emits.
Qed.

Lemma _check_analysis_frame (ev : Event) (s s' : Analysis) (t : list action) :
  _check_analysis ev s = Ok (s', t) -> gating_frame s s'.
Proof.
  unfold _check_analysis. intros H.
  repeat case_match; try discriminate;
    try (run_branch H; repeat case_match; run_branch H; simplify_eq;
         now constructor).
  apply seq_Ok in H as (s1 & t1 & t2 & E1 & E2 & ->).
  apply after_advance_frame in E2 as [Hconf ? ? ?].
  run_branch E1. injection E1 as <- <-.
  constructor; simpl in *; try congruence.
  unfold set_current_ts in *. simpl in *. congruence.
Qed.

Lemma emits__check_analysis (ev : Event) : emits engine_call (_check_analysis ev).
Proof.
  intros s s' t. unfold _check_analysis. intros H.
  pose proof (emits_after_advance ev).
  repeat case_match; try discriminate; by_emits.
Qed.

(** The range gating never runs out of fuel. *)
Lemma _check_analysis_fuel (ev : Event) (s : Analysis) :
  _check_analysis ev s <> Raise LoopFuel.
Proof.
  unfold _check_analysis.
  destruct (negb (truthy_seq _)); [discriminate|].
  destruct (Py.index _ _) as [range|e] eqn:Hidx.
  2: { unfold Py.index in Hidx. repeat case_match; congruence. }
  destruct (started _).
  - destruct (range_end range); [|discriminate].
    destruct (timestamp ev >? _); [|discriminate].
    destruct (advance_range _ _ _ _ _) as [[cur' range']|e] eqn:Hadv.
    + unfold after_advance, seq, when, modify, skip, reset, emit.
      rewrite !_end_period_eq. simpl.
      repeat case_match; congruence.
    + intros [= ->]. revert Hadv. apply advance_range_fuel. right.
      apply index_inv in Hidx. lia.
  - destruct (range_begin range); [|discriminate].
    destruct (timestamp ev >=? _); [|discriminate].
    unfold seq, when, modify, skip, reset, emit. simpl.
    repeat case_match; congruence.
Qed.

(** The range gating fails in two ways only: the index is outside the range
    list, or the loop reaches a range without an end bound. *)
Lemma _check_analysis_raises (ev : Event) (s : Analysis) (e : exn) :
  _check_analysis ev s = Raise e -> e = IndexError \/ e = TypeError.
Proof.
  pose proof (_check_analysis_fuel ev s) as Hfuel. intros H.
  destruct e; auto; [|congruence].
  exfalso. revert H. unfold _check_analysis.
  destruct (negb (truthy_seq _)); [discriminate|].
  destruct (Py.index _ _) as [range|e] eqn:Hidx.
  2: { unfold Py.index in Hidx. repeat case_match; congruence. }
  destruct (started _).
  - destruct (range_end range); [|discriminate].
    destruct (timestamp ev >? _); [|discriminate].
    generalize (Z.to_nat (Z.of_nat (length (default [] (range_ts (_conf s))))
                          - default 0 (current_ts (_conf s)))).
    generalize (default 0 (current_ts (_conf s))) at 1 2.
    generalize (Some range). intros r c n.
    destruct (advance_range _ _ _ _ _) as [[cur' range']|e] eqn:Hadv.
    + unfold after_advance, seq, when, modify, skip, reset, emit.
      rewrite !_end_period_eq. simpl.
      repeat case_match; congruence.
    + intros [= ->]. revert r c Hadv.
      induction n as [|n IH]; intros r c; simpl;
        destruct r as [r|]; try discriminate;
        unfold Py.gt; destruct (range_end r) as [end_|]; try discriminate;
        destruct (timestamp ev >? end_); try discriminate.
      destruct (_ >? c + 1); [|apply IH].
      destruct (Py.index _ (c + 1)) as [r'|e] eqn:Hi; [apply IH|].
      unfold Py.index in Hi. repeat case_match; congruence.
  - destruct (range_begin range); [|discriminate].
    destruct (timestamp ev >=? _); [|discriminate].
    unfold seq, when, modify, skip, reset, emit. simpl.
    repeat case_match; congruence.
Qed.

Lemma after_advance_conf (ev : Event) (range : option TimeRange)
    (s s' : Analysis) (t : list action) :
  after_advance ev range s = Ok (s', t) ->
  _conf s' = _conf s /\
  ended s' = match range with Some _ => ended s | None => true end.
Proof.
  unfold after_advance. intros H.
  run_branch H. repeat case_match; run_branch H; simplify_eq; now split.
Qed.

(** The range gating sets [ended] only with the index past the list. *)
(** Settles [ended_inv] for the result of a branch that leaves [ended] false. *)
Ltac not_ended H :=
  run_branch H; simplify_eq;
  let Hended := fresh in intros Hended; simpl in *; congruence.

Lemma _check_analysis_ended_inv (ev : Event) (s s' : Analysis) (t : list action) :
  _check_analysis ev s = Ok (s', t) -> ended s = false -> ended_inv s'.
Proof.
  unfold _check_analysis. intros H Hended.
  destruct (negb (truthy_seq _)) eqn:Hranges.
  { not_ended H. }
  apply negb_false_iff, truthy_seq_Some in Hranges as (r0 & rest & Hranges).
  rewrite Hranges in H. simpl in H.
  destruct (Py.index _ _) as [range|e] eqn:Hidx; [|discriminate].
  destruct (started s).
  - destruct (range_end range); [|not_ended H].
    destruct (timestamp ev >? _); [|not_ended H].
    destruct (advance_range _ _ _ _ _) as [[cur' range']|e] eqn:Hadv; [|discriminate].
    apply seq_Ok in H as (s1 & t1 & t2 & E1 & E2 & ->).
    apply after_advance_conf in E2 as [Hconf Hend].
    run_branch E1. injection E1 as <- <-.
    intros Hs'. rewrite Hend in Hs'. simpl in Hs'.
    destruct range' as [r'|]; [congruence|].
    exists (r0 :: rest), cur'. rewrite Hconf. simpl. rewrite Hranges.
    split; [reflexivity|]. split; [discriminate|]. split; [reflexivity|].
    apply index_inv in Hidx.
    pose proof (advance_range_exhausted _ _ _ _ _ _ (proj2 Hidx) Hadv) as Hpast.
    simpl length in *. lia.
  - destruct (range_begin range); [|not_ended H].
    destruct (timestamp ev >=? _); run_branch H;
      repeat case_match; not_ended H.
Qed.

Lemma gating_ended_inv (ev : Event) (s s' : Analysis) (t : list action) :
  gating ev s = Ok (s', t) -> ended s = false -> ended_inv s'.
Proof.
  unfold gating. intros H Hended.
  apply seq_Ok in H as (s1 & t1 & t2 & E1 & H & ->).
  apply seq_Ok in H as (s2 & t3 & t4 & E2 & E3 & ->).
  eapply _check_analysis_ended_inv; [exact E3|].
  run_branch E1. simplify_eq.
  run_branch E2. repeat case_match; simplify_eq; exact Hended.
Qed.

(** An engine that has reached [ended] fails on the next event: the range
    gating runs before the [ended] test and indexes the range list past its
    end. *)
Lemma process_event_ended (ev : Event) (s : Analysis) :
  ended s = true -> ended_inv s -> process_event ev s = Raise IndexError.
Proof.
  intros Hended Hinv.
  destruct (Hinv Hended) as (ranges & c & Hranges & Hne & Hcur & Hlen).
  destruct ranges as [|r0 rest]; [congruence|].
  unfold process_event, gating, seq, modify, when, _check_analysis. simpl.
  rewrite ?Hcur, ?Hranges. simpl. rewrite ?Hcur, ?Hranges. simpl.
  rewrite index_past_end by exact Hlen. reflexivity.
Qed.

Lemma process_event_ended_inv (ev : Event) (s s' : Analysis) (t : list action) :
  process_event ev s = Ok (s', t) -> ended_inv s -> ended_inv s'.
Proof.
  intros H Hinv.
  destruct (ended s) eqn:Hended.
  { rewrite process_event_ended in H by assumption. discriminate. }
  unfold process_event in H.
  apply seq_Ok in H as (s1 & t1 & t2 & E1 & E2 & ->).
  apply gating_ended_inv in E1; [|exact Hended].
  apply modes_modes_frame in E2 as [Hconf _ Hend _ _ _].
  unfold ended_inv. rewrite Hconf, Hend. exact E1.
Qed.

Lemma run_ended_inv (evs : list Event) :
  forall (s s' : Analysis) (t : list action),
    run evs s = Ok (s', t) -> ended_inv s -> ended_inv s'.
Proof.
  induction evs as [|ev rest IH]; simpl; intros s s' t H Hinv.
  - run_branch H. now simplify_eq.
  - apply seq_Ok in H as (s1 & t1 & t2 & E1 & E2 & ->).
    eapply IH; [exact E2|].
    eapply process_event_ended_inv; eassumption.
Qed.

(** ** process_event *)

Lemma gating_gating_frame (ev : Event) (s s' : Analysis) (t : list action) :
  gating ev s = Ok (s', t) -> gating_frame s s'.
Proof.
  unfold gating. intros H.
  apply seq_Ok in H as (s1 & t1 & t2 & E1 & H & ->).
  apply seq_Ok in H as (s2 & t3 & t4 & E2 & E3 & ->).
  apply _check_analysis_frame in E3 as [Hconf Hkey Hcbs Hsubs].
  run_branch E1. injection E1 as <- <-.
  run_branch E2.
  destruct (is_none _ && _); injection E2 as <- <-;
    constructor; simpl in *; congruence.
Qed.

Lemma emits_gating (ev : Event) : emits engine_call (gating ev).
Proof.
  pose proof (emits__check_analysis ev).
  unfold gating. auto 10 with emits.
Qed.

Lemma emits_process_event (ev : Event) : emits engine_call (process_event ev).
Proof.
  unfold process_event. apply emits_seq; [apply emits_gating | apply emits_modes].
Qed.

(** [process_event] is left by its own control flow, never by the fuel of
    the model. *)
Lemma process_event_fuel (ev : Event) (s : Analysis) :
  process_event ev s <> Raise LoopFuel.
Proof.
  unfold process_event, gating, seq at 1 2 3.
  unfold modify at 1. simpl.
  destruct (when _ _ _) as [[s1 t1]|e] eqn:E1.
  2: { unfold when, seq, modify, skip in E1. repeat case_match; discriminate. }
  destruct (_check_analysis ev s1) as [[s2 t2]|e] eqn:E2.
  2: { intros [= ->]. now apply _check_analysis_fuel in E2. }
  destruct (modes ev s2) as [[s3 t3]|e] eqn:E3; [discriminate|].
  intros [= ->]. revert E3. unfold modes, _handle_period_event, _check_refresh.
  unfold seq, modify, skip, _begin_period, reset, emit.
  rewrite ?_end_period_eq.
  repeat case_match; try discriminate; rewrite ?_end_period_eq; discriminate.
Qed.

Lemma _process_event_cb_spec (ev : Event) (s : Analysis) :
  _process_event_cb ev s
  = Ok (s, match spec_matching_cb (_cbs s) (name ev) with
           | Some cb => [CallEventCb cb ev]
           | None => []
           end).
Proof.
  unfold _process_event_cb, spec_matching_cb, has_cb, call_cb, emit, skip.
  destruct (_cbs s !! name ev) as [cb|]; simpl; [reflexivity|].
  destruct (String.prefix "sys_" (name ev) || String.prefix "syscall_entry_" (name ev));
    destruct (_cbs s !! "syscall_entry") as [cb1|]; simpl; try reflexivity;
    destruct (String.prefix "exit_syscall" (name ev)
              || String.prefix "syscall_exit_" (name ev));
    destruct (_cbs s !! "syscall_exit") as [cb2|]; reflexivity.
Qed.

Lemma process_event_cbs (ev : Event) (s s' : Analysis) (t : list action) :
  process_event ev s = Ok (s', t) -> _cbs s' = _cbs s.
Proof.
  unfold process_event. intros H.
  apply seq_Ok in H as (s1 & t1 & t2 & E1 & E2 & ->).
  apply gating_gating_frame in E1 as [_ _ Hg _].
  apply modes_modes_frame in E2 as [_ _ _ Hm _ _].
  congruence.
Qed.

(** * The claims *)

(** ** C1: dispatch *)

(** C1, as stated, fails: an engine that is started and not ended, holding a
    callback registered under the very name of the event, processes the event
    without calling it. *)
Lemma process_event_leaves_callback_uncalled :
  exists s',
    process_event (ev_at 5)
      (with_cbs {[ "sched_switch" := 1%nat ]} (Analysis_init AnalysisConfig_init))
    = Ok (s', [])
    /\ started s' = true /\ ended s' = false
    /\ _cbs s' !! name (ev_at 5) = Some 1%nat.
Proof.
  eexists. split; [reflexivity|]. repeat split.
Qed.

(** C1, amended: [process_event] only does the temporal bookkeeping.  It
    returns or raises a Python exception (the model's fuel never cuts it
    short); when it returns, every call it has made is [reset], the finalize
    hook or a notification, never a per-event-name callback, and the callback
    table is as before.  The dispatch is the separate method
    [_process_event_cb], which [process_event] does not call: run on the
    state [process_event] leaves, it calls at most one callback, the one
    under the exact name first, otherwise the syscall-entry or syscall-exit
    fallback, and changes nothing. *)
Theorem process_event_dispatches_nothing (ev : Event) (s : Analysis) :
  match process_event ev s with
  | Ok (s', t) =>
      Forall engine_call t
      /\ _cbs s' = _cbs s
      /\ _process_event_cb ev s'
         = Ok (s', match spec_matching_cb (_cbs s) (name ev) with
                   | Some cb => [CallEventCb cb ev]
                   | None => []
                   end)
  | Raise e => e <> LoopFuel
  end.
Proof.
  destruct (process_event ev s) as [[s' t]|e] eqn:H.
  - split; [|split].
    + eapply emits_process_event; exact H.
    + eapply process_event_cbs; exact H.
    + rewrite _process_event_cb_spec.
      now rewrite (process_event_cbs _ _ _ _ H).
  - intros ->. now apply process_event_fuel in H.
Qed.

Lemma process_event_dispatches_nothing_witness :
  exists s',
    process_event (ev_at 5)
      (with_cbs {[ "sched_switch" := 1%nat ]} (Analysis_init AnalysisConfig_init))
    = Ok (s', [])
    /\ Forall engine_call []
    /\ _cbs s' = {[ "sched_switch" := 1%nat ]}
    /\ _process_event_cb (ev_at 5) s' = Ok (s', [CallEventCb 1%nat (ev_at 5)]).
Proof.
  eexists. split; [reflexivity|].
  exact (process_event_dispatches_nothing (ev_at 5)
           (with_cbs {[ "sched_switch" := 1%nat ]}
              (Analysis_init AnalysisConfig_init))).
Defined.

(** ** C2: accumulate *)

(** C2, as stated, fails: over the ranges [10,20] and [30,40] with
    [accumulate] set, the events 25 and 45 each cross a range's end, and the
    whole run closes no window and sends no tick: its only call is the
    [reset] of the first window. *)
Lemma accumulate_run_closes_no_window :
  exists s',
    run (map ev_at [5; 10; 15; 25; 35; 45]) (subscribed (conf_ranges (Some true)))
    = Ok (s', [CallReset])
    /\ ended s' = true.
Proof.
  eexists. split; [vm_compute; reflexivity|]. reflexivity.
Qed.

Lemma _check_analysis_accumulate
    (ev : Event) (s s' : Analysis) (t : list action) :
  truthy_bool (accumulate (_conf s)) = true ->
  started s = true ->
  _check_analysis ev s = Ok (s', t) ->
  t = []
  /\ _period_start_ts s' = _period_start_ts s
  /\ _period_key s' = _period_key s.
Proof.
  intros Hacc Hstarted. unfold _check_analysis.
  destruct (negb (truthy_seq _)).
  { intros H. run_branch H. now simplify_eq. }
  destruct (Py.index _ _) as [range|e]; [|discriminate].
  simpl. rewrite Hstarted.
  destruct (range_end range); [|intros H; run_branch H; now simplify_eq].
  destruct (timestamp ev >? _); [|intros H; run_branch H; now simplify_eq].
  destruct (advance_range _ _ _ _ _) as [[cur' range']|e]; [|discriminate].
  unfold after_advance. intros H. run_branch H.
  rewrite ?Hacc in H. simpl in H.
  destruct range' as [r'|];
    [destruct (range_begin r'); [destruct (timestamp ev <? _)|]|];
    simpl in H; rewrite ?Hacc in H; simpl in H; injection H as <- <-; auto.
Qed.

(** C2, amended: with [accumulate] set, the range gating of a started engine
    makes no call at all, whatever ranges the event crosses: no window close,
    no tick, no [reset]; it leaves the start of the period and the open key
    as they are, and only moves the index and the flags.  (The window close
    at a crossed end is guarded by [not accumulate].)  The gating returns, or
    raises [IndexError] or [TypeError]; the model's fuel never cuts it
    short. *)
Theorem accumulate_gating_is_silent (ev : Event) (s : Analysis) :
  truthy_bool (accumulate (_conf s)) = true ->
  started s = true ->
  match _check_analysis ev s with
  | Ok (s', t) =>
      t = []
      /\ _period_start_ts s' = _period_start_ts s
      /\ _period_key s' = _period_key s
  | Raise e => e = IndexError \/ e = TypeError
  end.
Proof.
  intros Hacc Hstarted.
  destruct (_check_analysis ev s) as [[s' t]|e] eqn:H.
  - eapply _check_analysis_accumulate; eassumption.
  - eapply _check_analysis_raises; eassumption.
Qed.

Lemma accumulate_gating_is_silent_witness :
  exists s',
    _check_analysis (ev_at 25)
      (with_started true
         (with_period_start_ts (Some 10) (subscribed (conf_ranges (Some true)))))
    = Ok (s', [])
    /\ _period_start_ts s' = Some 10
    /\ _period_key s' = None
    /\ current_ts (_conf s') = Some 1
    /\ started s' = false.
Proof.
  eexists. split; [vm_compute; reflexivity|].
  pose proof (accumulate_gating_is_silent (ev_at 25)
    (with_started true
       (with_period_start_ts (Some 10) (subscribed (conf_ranges (Some true)))))
    eq_refl eq_refl) as (_ & Hstart & Hkey).
  split; [exact Hstart|]. split; [exact Hkey|]. split; reflexivity.
Defined.

(** ** C3: after [ended] *)

(** C3, on the code: once a run has set [ended], the next event does not
    complete: [process_event] raises [IndexError], because the range gating
    runs before the [ended] test and reads the range list at the exhausted
    index. *)
Theorem process_event_after_ended
    (evs : list Event) (s0 s : Analysis) (t : list action) (ev : Event) :
  ended s0 = false ->
  run evs s0 = Ok (s, t) ->
  ended s = true ->
  process_event ev s = Raise IndexError.
Proof.
  intros H0 Hrun Hended.
  apply process_event_ended; [exact Hended|].
  eapply run_ended_inv; [exact Hrun|].
  intros Habs. congruence.
Qed.

Lemma process_event_after_ended_witness :
  match run (map ev_at [10; 45]) (subscribed (conf_ranges None)) with
  | Ok (s, _) => ended s = true /\ process_event (ev_at 50) s = Raise IndexError
  | Raise _ => False
  end.
Proof.
  destruct (run (map ev_at [10; 45]) (subscribed (conf_ranges None)))
    as [[s t]|e] eqn:Hrun.
  - assert (ended s = true) as Hended.
    { vm_compute in Hrun. injection Hrun as <- _. reflexivity. }
    split; [exact Hended|].
    exact (process_event_after_ended (map ev_at [10; 45])
             (subscribed (conf_ranges None)) s t (ev_at 50) eq_refl Hrun Hended).
  - vm_compute in Hrun. discriminate.
Defined.

(** ** C4: [end] *)

(** [end()] closes the window exactly when the start of the period is a
    number other than zero. *)
Lemma end__eq (s : Analysis) :
  end_ s
  = Ok (s, if truthy_int (_period_start_ts s)
           then CallEndPeriodCb :: tick_calls s
           else []).
Proof.
  unfold end_, when. destruct (truthy_int _); [apply _end_period_eq | reflexivity].
Qed.

(** C4, on the code: after a first event at timestamp 0 the engine is
    started with a window open since 0, and [end()] closes nothing: no
    finalize hook and no tick, although a subscriber is registered. *)
Theorem end_keeps_window_opened_at_zero :
  exists s,
    process_event (ev_at 0) (subscribed AnalysisConfig_init) = Ok (s, [])
    /\ started s = true
    /\ _period_start_ts s = Some 0
    /\ _notification_cbs s !! TICK_CB = Some [7%nat]
    /\ end_ s = Ok (s, []).
Proof.
  eexists. split; [reflexivity|]. repeat split.
Qed.

(** ** C5: the order on TimeRange *)

(** C5, as stated, fails: ordering a range with no begin bound against one
    with numeric bounds raises [TypeError]. *)
Lemma TimeRange_lt_None_raises :
  TimeRangeOps.__lt__ (mkTimeRange None (Some 5)) (mkTimeRange (Some 10) (Some 20))
  = Raise TypeError
  /\ TimeRangeOps.__le__ (mkTimeRange None (Some 5)) (mkTimeRange (Some 10) (Some 20))
     = Raise TypeError.
Proof. split; reflexivity. Qed.

Lemma __lt___numeric (b1 e1 b2 e2 : Z) :
  TimeRangeOps.__lt__ (mkTimeRange (Some b1) (Some e1)) (mkTimeRange (Some b2) (Some e2))
  = Ok (if b1 =? b2 then e1 <? e2 else b1 <? b2).
Proof.
  unfold TimeRangeOps.__lt__. simpl.
  destruct (Z.eqb_spec b1 b2); simpl; [|reflexivity].
  destruct (Z.eqb_spec e1 e2); simpl; [|reflexivity].
  subst. now rewrite Z.ltb_irrefl.
Qed.

Lemma __lt___numeric_true (b1 e1 b2 e2 : Z) :
  TimeRangeOps.__lt__ (mkTimeRange (Some b1) (Some e1)) (mkTimeRange (Some b2) (Some e2))
  = Ok true
  <-> TimeRangeOps.lex_lt b1 e1 b2 e2.
Proof.
  rewrite __lt___numeric. unfold TimeRangeOps.lex_lt.
  destruct (Z.eqb_spec b1 b2); split.
  - intros [= ?%Z.ltb_lt]. now right.
  - intros [?|[_ ?%Z.ltb_lt]]; [lia|]. now f_equal.
  - intros [= ?%Z.ltb_lt]. now left.
  - intros [?%Z.ltb_lt|[? _]]; [now f_equal | contradiction].
Qed.

Lemma __eq___numeric_true (b1 e1 b2 e2 : Z) :
  TimeRangeOps.__eq__ (mkTimeRange (Some b1) (Some e1)) (mkTimeRange (Some b2) (Some e2))
  = true
  <-> b1 = b2 /\ e1 = e2.
Proof.
  unfold TimeRangeOps.__eq__. simpl.
  rewrite andb_true_iff, !Z.eqb_eq. reflexivity.
Qed.

(** C5, amended: on ranges whose bounds are all numbers the comparison
    operators return and implement the lexicographic order on
    [(begin, end)], which is a strict total order: [<] is that order, [==] is
    equality of both bounds, [<=], [>] and [>=] are derived from them, any
    two ranges are comparable, and [<] is irreflexive and transitive.  A
    [None] bound is not ordered: [<] raises [TypeError] as soon as the first
    pair of bounds that differ holds a [None]; only [==] accepts it. *)
Theorem TimeRange_order_on_numeric_bounds (b1 e1 b2 e2 b3 e3 : Z) :
  let x := mkTimeRange (Some b1) (Some e1) in
  let y := mkTimeRange (Some b2) (Some e2) in
  let z := mkTimeRange (Some b3) (Some e3) in
  (exists lt_xy,
      TimeRangeOps.__lt__ x y = Ok lt_xy
      /\ (lt_xy = true <-> TimeRangeOps.lex_lt b1 e1 b2 e2)
      /\ TimeRangeOps.__le__ x y = Ok (lt_xy || TimeRangeOps.__eq__ x y)
      /\ TimeRangeOps.__gt__ x y = Ok (negb lt_xy && negb (TimeRangeOps.__eq__ x y))
      /\ TimeRangeOps.__ge__ x y = Ok (negb lt_xy))
  /\ (TimeRangeOps.__eq__ x y = true <-> b1 = b2 /\ e1 = e2)
  /\ (TimeRangeOps.__lt__ x y = Ok true \/ TimeRangeOps.__eq__ x y = true
      \/ TimeRangeOps.__lt__ y x = Ok true)
  /\ TimeRangeOps.__lt__ x x = Ok false
  /\ (TimeRangeOps.__lt__ x y = Ok true -> TimeRangeOps.__lt__ y z = Ok true ->
      TimeRangeOps.__lt__ x z = Ok true)
  /\ TimeRangeOps.__lt__ (mkTimeRange None (Some e1)) y = Raise TypeError
  /\ TimeRangeOps.__lt__ x (mkTimeRange None (Some e2)) = Raise TypeError
  /\ TimeRangeOps.__eq__ (mkTimeRange None (Some e1)) y = false.
Proof.
  intros x y z. subst x y z.
  split; [|split; [|split; [|split; [|split; [|split; [|split]]]]]].
  - eexists. split; [apply __lt___numeric|]. split; [|repeat split].
    + rewrite <- __lt___numeric_true, __lt___numeric.
      split; [now intros -> | now intros [= ->]].
    + unfold TimeRangeOps.__le__. now rewrite __lt___numeric.
    + unfold TimeRangeOps.__gt__. now rewrite __lt___numeric.
    + unfold TimeRangeOps.__ge__. now rewrite __lt___numeric.
  - apply __eq___numeric_true.
  - rewrite !__lt___numeric_true, __eq___numeric_true.
    unfold TimeRangeOps.lex_lt. lia.
  - rewrite __lt___numeric, Z.eqb_refl. now rewrite Z.ltb_irrefl.
  - rewrite !__lt___numeric_true. unfold TimeRangeOps.lex_lt. lia.
  - reflexivity.
  - reflexivity.
  - reflexivity.
Qed.

Lemma TimeRange_order_on_numeric_bounds_witness :
  TimeRangeOps.__lt__ (mkTimeRange (Some 10) (Some 20)) (mkTimeRange (Some 30) (Some 40))
  = Ok true.
Proof.
  refine (proj1 (proj2 (proj2 (proj2 (proj2
    (TimeRange_order_on_numeric_bounds 10 20 10 30 30 40))))) _ _);
    reflexivity.
Defined.

(** ** C6: the end marker and the open key *)

(** C6: while a period is open with key [K], an end marker whose key, read
    through [period_end_key_fields], is not [K] (another key, or no key
    because a field is missing) changes nothing and makes no call; an end
    marker with key [K], the end marker's name being configured, closes the
    period: one window close, then the key and the start of the period are
    cleared.  And nothing else clears the open key: whenever the machine
    leaves a key other than [K], the event was such an end marker. *)
Theorem end_marker_closes_only_its_key
    (ev : Event) (s : Analysis) (K : list value) :
  _period_key s = Some K ->
  K <> [] ->
  let key := _get_period_event_key ev (period_end_key_fields (_conf s)) in
  let is_end := str_eq (name ev) (period_end_ev_name (_conf s)) in
  (is_end = true -> key <> Some K ->
   _handle_period_event ev s = Ok (s, []))
  /\ (truthy_str (period_end_ev_name (_conf s)) = true ->
      is_end = true -> key = Some K ->
      _handle_period_event ev s = Ok (closed s, CallEndPeriodCb :: tick_calls s))
  /\ (forall s' t,
        _handle_period_event ev s = Ok (s', t) ->
        _period_key s' <> Some K ->
        is_end = true /\ key = Some K /\ s' = closed s).
Proof.
  intros Hopen HK key is_end.
  assert (truthy_seq (_period_key s) = true) as Htruthy.
  { rewrite Hopen. destruct K; [contradiction|reflexivity]. }
  unfold _handle_period_event. fold key. fold is_end.
  rewrite Htruthy, Hopen.
  pose proof (_get_period_event_key_truthy ev (period_end_key_fields (_conf s)))
    as Hkey. fold key in Hkey. rewrite Hkey.
  split; [|split].
  - intros -> Hne. rewrite andb_false_r.
    destruct key as [k|]; simpl; [|reflexivity].
    rewrite bool_decide_eq_false_2 by exact Hne. reflexivity.
  - intros Hname -> ->. rewrite andb_false_r. simpl.
    rewrite bool_decide_eq_true_2 by reflexivity.
    rewrite Hname. unfold seq, modify. rewrite _end_period_eq. simpl.
    now rewrite app_nil_r.
  - intros s' t H Hne.
    destruct (negb _ && negb is_end); [run_branch H; simplify_eq; congruence|].
    destruct key as [k|]; simpl in H; [|run_branch H; simplify_eq; congruence].
    destruct (bool_decide_reflect (Some k = Some K)) as [Hk|Hk];
      [|run_branch H; simplify_eq; congruence].
    destruct (truthy_str _).
    + destruct is_end; [|run_branch H; simplify_eq; congruence].
      run_branch H. rewrite app_nil_r in H. simplify_eq. auto.
    + destruct (str_eq _ (period_begin_ev_name _));
        run_branch H; simplify_eq; simpl in *; congruence.
Qed.

Lemma end_marker_closes_only_its_key_witness :
  _handle_period_event (marker "end" 2 "B") (open_A (Some "end"))
  = Ok (open_A (Some "end"), [])
  /\ _handle_period_event (marker "end" 3 "A") (open_A (Some "end"))
     = Ok (closed (open_A (Some "end")),
           CallEndPeriodCb :: tick_calls (open_A (Some "end"))).
Proof.
  split.
  - refine (proj1 (end_marker_closes_only_its_key (marker "end" 2 "B")
                     (open_A (Some "end")) [VStr "A"] eq_refl _) eq_refl _);
      vm_compute; congruence.
  - refine (proj1 (proj2 (end_marker_closes_only_its_key (marker "end" 3 "A")
                            (open_A (Some "end")) [VStr "A"] eq_refl _))
              eq_refl eq_refl _);
      [discriminate | vm_compute; reflexivity].
Defined.

(** ** C7: rotation on the begin marker *)

(** C7, as stated, fails: with a begin marker name, begin key fields and
    nothing else configured ([period_end_ev_name] and
    [period_end_key_fields] are [None], as [AnalysisConfig] creates them), a
    second begin marker with the key of the open period is ignored: the
    whole run calls [reset] once, for the first marker, and closes nothing;
    the machine returns the open state as it is. *)
Lemma second_begin_marker_is_ignored :
  (exists s',
      run [marker "begin" 1 "A"; marker "begin" 2 "A"]
        (subscribed (conf_keyed None (Some ["k"]) None))
      = Ok (s', [CallReset])
      /\ _period_key s' = Some [VStr "A"])
  /\ _handle_period_event (marker "begin" 2 "A")
       (opened [VStr "A"] 1 (subscribed (conf_keyed None (Some ["k"]) None)))
     = Ok (opened [VStr "A"] 1 (subscribed (conf_keyed None (Some ["k"]) None)),
           []).
Proof.
  split; [|reflexivity].
  eexists. split; [vm_compute; reflexivity|]. reflexivity.
Qed.

(** C7, amended: with no end marker name configured, what a begin marker
    does to an open period is decided by the key the engine reads on it
    through [period_end_key_fields], the fields it uses on every marker while
    a period is open.  If that key is the key [K] of the open period, the
    marker rotates the period: exactly one window close (the finalize hook
    and the ticks of the old window), immediately followed by one
    [_begin_period]: the key is [K] again, the period starts at the event's
    timestamp, and [reset] is called once.  If those fields give another key
    or no key, the marker is ignored and nothing changes; that is so in
    particular whenever [period_end_key_fields] is unset or empty. *)
Theorem begin_marker_rotates_period
    (ev : Event) (s : Analysis) (K : list value) :
  _period_key s = Some K ->
  K <> [] ->
  truthy_str (period_end_ev_name (_conf s)) = false ->
  str_eq (name ev) (period_begin_ev_name (_conf s)) = true ->
  let key := _get_period_event_key ev (period_end_key_fields (_conf s)) in
  (key = Some K ->
   _handle_period_event ev s
   = Ok (opened K (timestamp ev) s,
         (CallEndPeriodCb :: tick_calls s) ++ [CallReset]))
  /\ (key <> Some K -> _handle_period_event ev s = Ok (s, []))
  /\ (truthy_seq (period_end_key_fields (_conf s)) = false ->
      _handle_period_event ev s = Ok (s, [])).
Proof.
  intros Hopen HK Hend Hbegin key.
  assert (truthy_seq (_period_key s) = true) as Htruthy.
  { rewrite Hopen. destruct K; [contradiction|reflexivity]. }
  assert (key <> Some K -> _handle_period_event ev s = Ok (s, [])) as Hother.
  { intros Hne. unfold _handle_period_event. fold key.
    rewrite Hbegin, Htruthy, Hopen. simpl.
    destruct (truthy_seq key); simpl; [|reflexivity].
    now rewrite bool_decide_eq_false_2 by exact Hne. }
  split; [|split; [exact Hother|]].
  - intros Hkey. unfold _handle_period_event. fold key.
    rewrite Hbegin, Hkey, Hopen, Hend. simpl.
    destruct K as [|v K]; [contradiction|]. simpl.
    rewrite bool_decide_eq_true_2 by reflexivity.
    unfold seq. rewrite _end_period_eq, _begin_period_eq. reflexivity.
  - intros Hfields. apply Hother. unfold key, _get_period_event_key.
    rewrite Hfields. discriminate.
Qed.

Lemma begin_marker_rotates_period_witness :
  _handle_period_event (marker "begin" 2 "A") (open_A None)
  = Ok (opened [VStr "A"] 2 (open_A None),
        (CallEndPeriodCb :: tick_calls (open_A None)) ++ [CallReset])
  /\ _handle_period_event (marker "begin" 2 "B") (open_A None)
     = Ok (open_A None, []).
Proof.
  split.
  - refine (proj1 (begin_marker_rotates_period (marker "begin" 2 "A")
                     (open_A None) [VStr "A"] eq_refl _ eq_refl eq_refl) _);
      [discriminate | vm_compute; reflexivity].
  - refine (proj1 (proj2 (begin_marker_rotates_period (marker "begin" 2 "B")
                            (open_A None) [VStr "A"] eq_refl _ eq_refl eq_refl))
              _);
      [discriminate | vm_compute; congruence].
Defined.

(** ** C9: a missing key field *)

(** C9: when the event lacks one of the key fields the machine reads on it
    (those of the end marker while a period is open, those of the begin
    marker otherwise), [_handle_period_event] returns without raising,
    leaves the whole state as it is (so the key and the start of the period
    too) and makes no call: no period opens or closes and no tick fires. *)
Theorem missing_key_field_ignores_event
    (ev : Event) (s : Analysis) (f : string) :
  In f (default [] (consulted_key_fields s)) ->
  fields ev !! f = None ->
  _handle_period_event ev s = Ok (s, []).
Proof.
  unfold consulted_key_fields, _handle_period_event. intros Hin Hf.
  destruct (negb _ && negb _); [reflexivity|].
  destruct (truthy_seq (_period_key s)).
  - now rewrite (_get_period_event_key_missing _ _ _ Hin Hf).
  - destruct (str_eq _ _); [|reflexivity].
    now rewrite (_get_period_event_key_missing _ _ _ Hin Hf).
Qed.

Lemma missing_key_field_ignores_event_witness :
  _handle_period_event (mkEvent 2 "end" {[ "other" := VStr "A" ]})
    (open_A (Some "end"))
  = Ok (open_A (Some "end"), []).
Proof.
  refine (missing_key_field_ignores_event
            (mkEvent 2 "end" {[ "other" := VStr "A" ]}) (open_A (Some "end"))
            "k" _ _);
    [left; reflexivity | vm_compute; reflexivity].
Defined.

(** ** C8: the refresh interval *)

(** Without a range list the index [current_ts] stays [None], so
    [process_event] moves the start of the period to every event before it
    checks the refresh interval: the interval has never elapsed, and the
    event closes nothing. *)
Lemma refresh_without_ranges_is_silent (ev : Event) (s : Analysis) (p : Z) :
  truthy_seq (range_ts (_conf s)) = false ->
  current_ts (_conf s) = None ->
  period_begin_ev_name (_conf s) = None ->
  refresh_period (_conf s) = Some p ->
  0 < p ->
  process_event ev s
  = Ok (with_started true
          (with_period_start_ts (Some (timestamp ev))
             (with_last_event_ts (Some (timestamp ev)) s)), []).
Proof.
  intros Hranges Hcur Hbegin Hrefresh Hp.
  assert (no_first_begin (_conf s) = true) as Hfirst.
  { unfold no_first_begin. destruct (range_ts (_conf s)) as [[|? ?]|];
      simpl in *; congruence. }
  unfold process_event, gating, seq, modify, when, _check_analysis, modes,
    _check_refresh, skip.
  simpl. rewrite Hcur, Hfirst. simpl. rewrite Hranges. simpl.
  rewrite Hbegin, Hrefresh. simpl.
  destruct (ended s); [reflexivity|].
  destruct (Z.eqb_spec (timestamp ev) 0) as [->|Hts]; simpl; [reflexivity|].
  destruct (Z.geb_spec (timestamp ev) (timestamp ev + p)); [lia|reflexivity].
Qed.

(** C8, on the code: with [refresh_period = 100], no range list and a tick
    subscriber, the events 0, 50, 150, 260 fed to [process_event] close no
    window and send no tick, neither at 150 nor at 260; the start of the
    period has followed every event.  And [_check_refresh] on its own takes
    a window opened at timestamp 0 for no window: at 150 it moves the start
    instead of closing. *)
Theorem refresh_events_fire_no_tick :
  (exists s',
      run (map ev_at [0; 50; 150; 260]) (subscribed (conf_refresh 100))
      = Ok (s', [])
      /\ _period_start_ts s' = Some 260)
  /\ _check_refresh (ev_at 150)
       (with_period_start_ts (Some 0) (subscribed (conf_refresh 100)))
     = Ok (with_period_start_ts (Some 150) (subscribed (conf_refresh 100)), []).
Proof.
  split; [|reflexivity].
  eexists. split; [vm_compute; reflexivity|]. reflexivity.
Qed.

(** ** C10: a begin marker without key fields *)

(** C10, as stated, fails: with a begin marker name and no key fields, the
    first event leaves the open key [None] but not the start of the period,
    which [process_event] sets for the implicit window. *)
Lemma period_start_ts_set_without_key_fields :
  exists s',
    process_event (marker "begin" 5 "A") (subscribed (conf_keyed None None None))
    = Ok (s', [])
    /\ _period_key s' = None
    /\ _period_start_ts s' = Some 5.
Proof.
  eexists. split; [reflexivity|]. split; reflexivity.
Qed.

Lemma process_event_no_key_fields (ev : Event) (s : Analysis) :
  is_none (period_begin_ev_name (_conf s)) = false ->
  truthy_seq (period_begin_key_fields (_conf s)) = false ->
  _period_key s = None ->
  process_event ev s = gating ev s.
Proof.
  intros Hname Hfields Hkey. unfold process_event, seq.
  destruct (gating ev s) as [[s1 t1]|e] eqn:Hg; [|reflexivity].
  apply gating_gating_frame in Hg as [Hconf Hkey1 _ _].
  assert (period_begin_ev_name (_conf s1) = period_begin_ev_name (_conf s)) as Hn
    by exact (f_equal period_begin_ev_name Hconf).
  assert (period_begin_key_fields (_conf s1) = period_begin_key_fields (_conf s))
    as Hf by exact (f_equal period_begin_key_fields Hconf).
  unfold modes. rewrite Hn, Hname. simpl.
  rewrite _handle_period_event_no_key_fields
    by (rewrite ?Hkey1, ?Hkey, ?Hf; auto).
  unfold skip. destruct (negb (started s1) || ended s1); now rewrite app_nil_r.
Qed.

(** C10, amended: with a begin marker name configured and its key fields
    unset or empty, no keyed period ever opens.  Key extraction yields no key
    on any event, and on every stream [process_event] does exactly what its
    timestamp bookkeeping and range gating do: the keyed-period machine
    changes nothing and fires no tick, the refresh interval is never
    consulted, and the open key stays [None].  [period_start_ts] is not
    promised to stay [None]: the implicit window and the range gating set
    it. *)
Theorem no_key_fields_never_opens (evs : list Event) (s0 : Analysis) :
  is_none (period_begin_ev_name (_conf s0)) = false ->
  truthy_seq (period_begin_key_fields (_conf s0)) = false ->
  _period_key s0 = None ->
  (forall ev,
      _get_period_event_key ev (period_begin_key_fields (_conf s0)) = None)
  /\ run evs s0 = run_gating evs s0
  /\ (forall s t, run evs s0 = Ok (s, t) -> _period_key s = None).
Proof.
  intros Hname Hfields Hkey. split.
  { intros ev. unfold _get_period_event_key. now rewrite Hfields. }
  revert s0 Hname Hfields Hkey.
  induction evs as [|ev rest IH]; intros s0 Hname Hfields Hkey; simpl.
  - split; [reflexivity|]. intros s t [= <- <-]. exact Hkey.
  - unfold seq. rewrite (process_event_no_key_fields ev s0) by assumption.
    destruct (gating ev s0) as [[s1 t1]|e] eqn:Hg; [|split; [reflexivity|discriminate]].
    apply gating_gating_frame in Hg as [Hconf Hkey1 _ _].
    assert (period_begin_ev_name (_conf s1) = period_begin_ev_name (_conf s0))
      as Hn by exact (f_equal period_begin_ev_name Hconf).
    assert (period_begin_key_fields (_conf s1)
            = period_begin_key_fields (_conf s0))
      as Hf by exact (f_equal period_begin_key_fields Hconf).
    destruct (IH s1) as [Hrun Hnone]; [congruence..|].
    rewrite Hrun. split; [reflexivity|].
      intros s t H. destruct (run_gating rest s1) as [[s2 t2]|e] eqn:Hr;
        [|discriminate].
      injection H as <- <-. apply (Hnone s2 t2). congruence.
Qed.

Lemma no_key_fields_never_opens_witness :
  exists s',
    run [marker "begin" 5 "A"; marker "begin" 6 "A"]
      (subscribed (conf_keyed None None None))
    = Ok (s', [])
    /\ _period_key s' = None.
Proof.
  eexists. split; [vm_compute; reflexivity|].
  refine (proj2 (proj2 (no_key_fields_never_opens
    [marker "begin" 5 "A"; marker "begin" 6 "A"]
    (subscribed (conf_keyed None None None)) eq_refl eq_refl eq_refl)) _ [] _).
  vm_compute. reflexivity.
Defined.

(** * Further properties of the code *)

(** ** Filters *)

(** X1: no process object always passes [_filter_process]; a process passes
    exactly when its command name is in [proc_list] unless that list is unset
    or empty, and its thread id is in [tid_list] unless that list is unset or
    empty. *)
Theorem _filter_process_passes (cf : FilterConfig) (proc : option Process) :
  _filter_process cf proc = true
  <-> match proc with
      | None => True
      | Some p =>
          (truthy_seq (proc_list cf) = true -> comm p ∈ default [] (proc_list cf))
          /\ (truthy_seq (tid_list cf) = true -> tid p ∈ default [] (tid_list cf))
      end.
Proof.
  destruct proc as [p|]; simpl; [|tauto].
  destruct (truthy_seq (proc_list cf)), (truthy_seq (tid_list cf)); simpl;
    repeat case_bool_decide; simpl; intuition (try discriminate; auto).
Qed.

(** X2: a CPU passes [_filter_cpu] exactly when [cpu_list] is unset or empty,
    or holds the CPU. *)
Theorem _filter_cpu_passes (cf : FilterConfig) (cpu : Z) :
  _filter_cpu cf cpu = true
  <-> truthy_seq (cpu_list cf) = false \/ cpu ∈ default [] (cpu_list cf).
Proof.
  unfold _filter_cpu.
  destruct (truthy_seq (cpu_list cf)); simpl; try case_bool_decide; simpl;
    intuition (try discriminate; auto).
Qed.

(** ** Notifications *)

(** X3: [register_notification_cbs] adds and never replaces: under every
    name of the new mapping the callback is put after the subscribers the
    name already has, the other names keep their subscribers, and no other
    part of the engine changes. *)
Theorem register_notification_cbs_appends
    (new : gmap string callback) (s : Analysis) (nm : string) :
  exists s',
    register_notification_cbs new s = Ok (s', [])
    /\ _notification_cbs s' !! nm
       = match new !! nm with
         | Some cb => Some (default [] (_notification_cbs s !! nm) ++ [cb])
         | None => _notification_cbs s !! nm
         end
    /\ with_notification_cbs (_notification_cbs s) s' = s.
Proof.
  eexists. split; [reflexivity|]. simpl. split.
  - rewrite lookup_merge.
    destruct (_notification_cbs s !! nm), (new !! nm); reflexivity.
  - now destruct s.
Qed.

(** X4: a callback registered under [tick] is notified at the next window
    close after all the earlier subscribers, in registration order, with the
    start of the period and the last event timestamp; registering under
    another name leaves the window close as it was. *)
Theorem registered_tick_is_notified_last
    (nm : string) (cb : callback) (s : Analysis) :
  exists s',
    register_notification_cbs {[ nm := cb ]} s = Ok (s', [])
    /\ _end_period s'
       = Ok (s', CallEndPeriodCb
                 :: tick_calls s
                 ++ (if String.eqb nm TICK_CB
                     then [CallNotification cb TICK_CB (_period_start_ts s)
                             (_last_event_ts s)]
                     else [])).
Proof.
  eexists. split; [reflexivity|].
  rewrite _end_period_eq. f_equal. f_equal. f_equal.
  unfold tick_calls. simpl. rewrite lookup_merge.
  destruct (String.eqb_spec nm TICK_CB) as [->|Hne].
  - rewrite lookup_singleton_eq.
    destruct (_notification_cbs s !! TICK_CB); simpl;
      now rewrite ?map_app.
  - rewrite lookup_singleton_ne by exact Hne.
    destruct (_notification_cbs s !! TICK_CB); simpl; now rewrite ?app_nil_r.
Qed.

(** ** Dispatch *)

(** X5: [_process_event_cb] never raises, leaves the engine as it is, and
    calls at most one callback, always with the event itself. *)
Theorem _process_event_cb_at_most_one (ev : Event) (s : Analysis) :
  exists t,
    _process_event_cb ev s = Ok (s, t)
    /\ (length t <= 1)%nat
    /\ Forall (fun a => exists cb, a = CallEventCb cb ev) t.
Proof.
  rewrite _process_event_cb_spec. eexists. split; [reflexivity|].
  destruct (spec_matching_cb _ _); simpl; split; auto; repeat constructor.
  eauto.
Qed.

Lemma prefix_correct_iff (p s : string) :
  String.prefix p s = true -> exists rest, s = p +:+ rest.
Proof.
  revert s. induction p as [|a p IH]; intros s.
  - intros _. now exists s.
  - destruct s as [|b s]; simpl; [discriminate|].
    destruct (Ascii.ascii_dec a b) as [->|]; [|discriminate].
    intros [rest ->]%IH. now exists rest.
Qed.

(** No event name falls under both fallback rules. *)
Lemma syscall_prefixes_disjoint (nm : string) :
  String.prefix "sys_" nm || String.prefix "syscall_entry_" nm = true ->
  String.prefix "exit_syscall" nm || String.prefix "syscall_exit_" nm = false.
Proof.
  intros [H|H]%orb_true_iff; apply prefix_correct_iff in H as [rest ->];
    reflexivity.
Qed.

(** X6: the two fallback rules never compete.  Absent a callback under the
    exact name, an event with a syscall-exit prefix goes to the
    [syscall_exit] handler whether or not a [syscall_entry] handler is
    registered, and an event with a syscall-entry prefix is never handed to
    the [syscall_exit] handler: without a [syscall_entry] handler it is not
    dispatched at all. *)
Theorem syscall_fallbacks_do_not_compete (ev : Event) (s : Analysis) :
  _cbs s !! name ev = None ->
  (forall cb,
      String.prefix "exit_syscall" (name ev)
      || String.prefix "syscall_exit_" (name ev) = true ->
      _cbs s !! "syscall_exit" = Some cb ->
      _process_event_cb ev s = Ok (s, [CallEventCb cb ev]))
  /\ (String.prefix "sys_" (name ev)
      || String.prefix "syscall_entry_" (name ev) = true ->
      _cbs s !! "syscall_entry" = None ->
      _process_event_cb ev s = Ok (s, [])).
Proof.
  intros Hname. rewrite _process_event_cb_spec.
  unfold spec_matching_cb. rewrite Hname. split.
  - intros cb Hexit Hcb.
    destruct (String.prefix "sys_" (name ev)
              || String.prefix "syscall_entry_" (name ev)) eqn:Hentry.
    + apply syscall_prefixes_disjoint in Hentry. congruence.
    + simpl. now rewrite Hexit, Hcb.
  - intros Hentry Hcb. rewrite Hentry, Hcb.
    now rewrite (syscall_prefixes_disjoint _ Hentry).
Qed.

Lemma syscall_fallbacks_do_not_compete_witness :
  _process_event_cb (mkEvent 1 "syscall_exit_open" ∅)
    (with_cbs {[ "syscall_entry" := 1%nat; "syscall_exit" := 2%nat ]}
       (Analysis_init AnalysisConfig_init))
  = Ok (with_cbs {[ "syscall_entry" := 1%nat; "syscall_exit" := 2%nat ]}
          (Analysis_init AnalysisConfig_init),
        [CallEventCb 2%nat (mkEvent 1 "syscall_exit_open" ∅)]).
Proof.
  refine (proj1 (syscall_fallbacks_do_not_compete
                   (mkEvent 1 "syscall_exit_open" ∅)
                   (with_cbs {[ "syscall_entry" := 1%nat; "syscall_exit" := 2%nat ]}
                      (Analysis_init AnalysisConfig_init)) _) 2%nat _ _);
    reflexivity.
Defined.

(** ** The shape of the engine's steps *)

(** The range gating rewrites four things only: the index into the range
    list, the start of the period and the two flags. *)
Lemma after_advance_shape (ev : Event) (range : option TimeRange)
    (s s' : Analysis) (t : list action) :
  after_advance ev range s = Ok (s', t) ->
  s' = with_ended (ended s')
         (with_started (started s')
            (with_period_start_ts (_period_start_ts s') s)).
Proof.
  unfold after_advance. intros H. run_branch H.
  destruct (negb (truthy_bool (accumulate (_conf s)))) eqn:Hacc; simpl in H;
    (destruct range as [r|];
     [destruct (range_begin r); [destruct (timestamp ev <? _)|]|]);
    simpl in H; rewrite ?Hacc in H; simpl in H;
    injection H as <- <-; destruct s; reflexivity.
Qed.

Lemma _check_analysis_shape (ev : Event) (s s' : Analysis) (t : list action) :
  _check_analysis ev s = Ok (s', t) ->
  s' = mkAnalysis (set_current_ts (current_ts (_conf s')) (_conf s))
         (_period_key s) (_period_start_ts s') (_last_event_ts s)
         (_notification_cbs s) (_cbs s) (started s') (ended s').
Proof.
  unfold _check_analysis. intros H.
  destruct (negb (truthy_seq _)).
  { run_branch H. injection H as <- <-. destruct s as [[] ? ? ? ? ? ? ?].
    reflexivity. }
  destruct (Py.index _ _) as [range|e]; [|discriminate].
  simpl in H. destruct (started s).
  - destruct (range_end range);
      [|run_branch H; injection H as <- <-;
        destruct s as [[] ? ? ? ? ? ? ?]; reflexivity].
    destruct (timestamp ev >? _);
      [|run_branch H; injection H as <- <-;
        destruct s as [[] ? ? ? ? ? ? ?]; reflexivity].
    destruct (advance_range _ _ _ _ _) as [[cur' range']|e]; [|discriminate].
    apply seq_Ok in H as (s1 & t1 & t2 & E1 & E2 & ->).
    apply after_advance_shape in E2. rewrite E2.
    run_branch E1. injection E1 as <- _.
    destruct s as [[] ? ? ? ? ? ? ?]. reflexivity.
  - destruct (range_begin range);
      [|run_branch H; injection H as <- <-;
        destruct s as [[] ? ? ? ? ? ? ?]; reflexivity].
    destruct (timestamp ev >=? _); run_branch H;
      [destruct (is_none (_period_start_ts s)); simpl in H|];
      injection H as <- <-; destruct s as [[] ? ? ? ? ? ? ?]; reflexivity.
Qed.

(** The activation modes rewrite the open key and the start of the period
    only. *)
Lemma modes_shape (ev : Event) (s s' : Analysis) (t : list action) :
  modes ev s = Ok (s', t) ->
  s' = with_period_start_ts (_period_start_ts s')
         (with_period_key (_period_key s') s).
Proof.
  unfold modes, _handle_period_event, _check_refresh. intros H.
  repeat case_match; try discriminate;
    run_branch H; injection H as <- <-; destruct s; reflexivity.
Qed.

Lemma gating_shape (ev : Event) (s s' : Analysis) (t : list action) :
  gating ev s = Ok (s', t) ->
  s' = mkAnalysis (set_current_ts (current_ts (_conf s')) (_conf s))
         (_period_key s) (_period_start_ts s') (Some (timestamp ev))
         (_notification_cbs s) (_cbs s) (started s') (ended s').
Proof.
  unfold gating. intros H.
  apply seq_Ok in H as (s1 & t1 & t2 & E1 & H & ->).
  apply seq_Ok in H as (s2 & t3 & t4 & E2 & E3 & ->).
  apply _check_analysis_shape in E3. rewrite E3.
  run_branch E1. injection E1 as <- <-.
  run_branch E2. destruct (is_none _ && _); injection E2 as <- <-; reflexivity.
Qed.

Lemma run_app (evs1 evs2 : list Event) (s : Analysis) :
  run (evs1 ++ evs2) s = (run evs1 >>> run evs2) s.
Proof.
  revert s. induction evs1 as [|ev rest IH]; intros s; simpl.
  - unfold seq, skip. destruct (run evs2 s) as [[? ?]|]; reflexivity.
  - unfold seq. destruct (process_event ev s) as [[s1 t1]|e]; [|reflexivity].
    rewrite IH. unfold seq.
    destruct (run rest s1) as [[s2 t2]|e]; [|reflexivity].
    destruct (run evs2 s2) as [[s3 t3]|e]; [|reflexivity].
    now rewrite app_assoc.
Qed.

(** ** The timestamp bookkeeping *)

(** X7: whenever [process_event] returns, the last event timestamp is the
    one of the event just processed, whatever the mode and whether or not
    the engine is started; so after a stream it is the timestamp of the last
    event fed. *)
Theorem last_event_ts_is_last_fed
    (evs : list Event) (ev : Event) (s s' : Analysis) (t : list action) :
  run (evs ++ [ev]) s = Ok (s', t) ->
  _last_event_ts s' = Some (timestamp ev).
Proof.
  rewrite run_app. intros H.
  apply seq_Ok in H as (s1 & t1 & t2 & _ & H & _).
  simpl in H. apply seq_Ok in H as (s2 & t3 & t4 & H & E & _).
  run_branch E. injection E as <- _.
  unfold process_event in H.
  apply seq_Ok in H as (s3 & t5 & t6 & Hg & Hm & _).
  apply gating_shape in Hg. apply modes_shape in Hm.
  rewrite Hm, Hg. reflexivity.
Qed.

Lemma last_event_ts_is_last_fed_witness :
  exists s',
    run ([ev_at 5; ev_at 7] ++ [ev_at 9]) (subscribed (conf_ranges None))
    = Ok (s', [])
    /\ _last_event_ts s' = Some 9.
Proof.
  eexists. split; [vm_compute; reflexivity|].
  refine (last_event_ts_is_last_fed [ev_at 5; ev_at 7] (ev_at 9)
            (subscribed (conf_ranges None)) _ [] _).
  vm_compute. reflexivity.
Defined.

(** ** What the engine never touches *)

Lemma process_event_conf (ev : Event) (s s' : Analysis) (t : list action) :
  process_event ev s = Ok (s', t) ->
  _conf s' = set_current_ts (current_ts (_conf s')) (_conf s).
Proof.
  unfold process_event. intros H.
  apply seq_Ok in H as (s1 & t1 & t2 & Hg & Hm & _).
  apply gating_shape in Hg. apply modes_shape in Hm.
  rewrite Hm, Hg. reflexivity.
Qed.

(** X8: [process_event] treats the configuration as read-only but for
    [current_ts], and never changes the two callback registries. *)
Theorem process_event_keeps_options_and_registries
    (ev : Event) (s s' : Analysis) (t : list action) :
  process_event ev s = Ok (s', t) ->
  _conf s' = set_current_ts (current_ts (_conf s')) (_conf s)
  /\ _cbs s' = _cbs s
  /\ _notification_cbs s' = _notification_cbs s.
Proof.
  unfold process_event. intros H.
  apply seq_Ok in H as (s1 & t1 & t2 & Hg & Hm & _).
  apply gating_shape in Hg. apply modes_shape in Hm.
  rewrite Hm, Hg. simpl. auto.
Qed.

Lemma process_event_keeps_options_and_registries_witness :
  exists s',
    process_event (ev_at 25)
      (with_started true
         (with_period_start_ts (Some 10) (subscribed (conf_ranges None))))
    = Ok (s', [CallEndPeriodCb; CallNotification 7%nat TICK_CB (Some 10) (Some 25);
               CallReset])
    /\ _conf s' = set_current_ts (Some 1) (conf_ranges None)
    /\ _notification_cbs s' = {[ TICK_CB := [7%nat] ]}.
Proof.
  eexists. split; [vm_compute; reflexivity|].
  pose proof (process_event_keeps_options_and_registries (ev_at 25)
    (with_started true
       (with_period_start_ts (Some 10) (subscribed (conf_ranges None))))
    _ _ eq_refl) as (Hconf & _ & Hsubs).
  split; [exact Hconf | exact Hsubs].
Defined.

(** ** The index into the range list *)

Lemma advance_range_mono (ranges : list TimeRange) (ts : Z) :
  forall (fuel : nat) (cur cur' : Z) (range range' : option TimeRange),
    advance_range fuel ranges ts cur range = Ok (cur', range') -> cur <= cur'.
Proof.
  induction fuel as [|fuel IH]; intros cur cur' [r|] range'; simpl;
    try (intros [= <- _]; lia);
    destruct (Py.gt ts (range_end r)) as [[|]|e];
    try discriminate; try (intros [= <- _]; lia).
  destruct (_ >? cur + 1).
  - destruct (Py.index ranges (cur + 1)); [|discriminate].
    intros ?%IH. lia.
  - intros ?%IH. lia.
Qed.

Lemma _check_analysis_index (ev : Event) (s s' : Analysis) (t : list action) :
  _check_analysis ev s = Ok (s', t) -> index_not_back s s'.
Proof.
  unfold _check_analysis, index_not_back. intros H.
  destruct (negb (truthy_seq _)).
  { run_branch H. injection H as <- <-.
    destruct (current_ts (_conf s)); [lia|exact I]. }
  destruct (Py.index _ _) as [range|e]; [|discriminate].
  simpl in H. destruct (started s).
  - destruct (range_end range);
      [|run_branch H; injection H as <- <-; simpl;
        destruct (current_ts (_conf s)); simpl; lia].
    destruct (timestamp ev >? _);
      [|run_branch H; injection H as <- <-; simpl;
        destruct (current_ts (_conf s)); simpl; lia].
    destruct (advance_range _ _ _ _ _) as [[cur' range']|e] eqn:Hadv;
      [|discriminate].
    apply advance_range_mono in Hadv.
    apply seq_Ok in H as (s1 & t1 & t2 & E1 & E2 & ->).
    apply after_advance_conf in E2 as [-> _].
    run_branch E1. injection E1 as <- _. simpl.
    destruct (current_ts (_conf s)); simpl in *; lia.
  - destruct (range_begin range);
      [|run_branch H; injection H as <- <-; simpl;
        destruct (current_ts (_conf s)); simpl; lia].
    destruct (timestamp ev >=? _); run_branch H;
      [destruct (is_none (_period_start_ts s)); simpl in H|];
      injection H as <- <-; simpl;
      destruct (current_ts (_conf s)); simpl; lia.
Qed.

(** X9: the index into the range list never moves back: across a
    [process_event] that returns, [current_ts] stays [None], or becomes or
    stays an index at least as large as before (and at least 0 when it was
    [None]). *)
Theorem current_ts_never_moves_back
    (ev : Event) (s s' : Analysis) (t : list action) :
  process_event ev s = Ok (s', t) -> index_not_back s s'.
Proof.
  unfold process_event. intros H.
  apply seq_Ok in H as (s1 & t1 & t2 & Hg & Hm & _).
  apply modes_modes_frame in Hm as [Hconf _ _ _ _ _].
  unfold gating in Hg.
  apply seq_Ok in Hg as (s2 & t3 & t4 & E1 & Hg & _).
  apply seq_Ok in Hg as (s3 & t5 & t6 & E2 & E3 & _).
  apply _check_analysis_index in E3.
  unfold index_not_back in *. rewrite Hconf.
  run_branch E1. injection E1 as <- _.
  run_branch E2. destruct (is_none _ && _); injection E2 as <- _; exact E3.
Qed.

Lemma current_ts_never_moves_back_witness :
  exists s',
    process_event (ev_at 45)
      (with_started true
         (with_period_start_ts (Some 10) (subscribed (conf_ranges (Some true)))))
    = Ok (s', [])
    /\ index_not_back
         (with_started true
            (with_period_start_ts (Some 10) (subscribed (conf_ranges (Some true)))))
         s'
    /\ current_ts (_conf s') = Some 2.
Proof.
  eexists. split; [vm_compute; reflexivity|]. split; [|reflexivity].
  refine (current_ts_never_moves_back (ev_at 45) _ _ [] _).
  vm_compute. reflexivity.
Defined.

(** ** Crossing the end of a range *)

(** The loop leaves either a range the event has not passed, or the index
    past the list. *)
Lemma advance_range_post (ranges : list TimeRange) (ts : Z) :
  forall (fuel : nat) (cur cur' : Z) (range range' : option TimeRange),
    advance_range fuel ranges ts cur range = Ok (cur', range') ->
    match range' with
    | Some r' =>
        exists e', range_end r' = Some e' /\ ts <= e'
                   /\ ((range = Some r' /\ cur' = cur)
                       \/ (cur < cur' /\ Py.index ranges cur' = Ok r'))
    | None =>
        (range = None /\ cur' = cur)
        \/ (cur < cur' /\ Z.of_nat (length ranges) <= cur')
    end.
Proof.
  induction fuel as [|fuel IH]; intros cur cur' [r|] range'; simpl;
    try (intros [= <- <-]; now left).
  - unfold Py.gt. destruct (range_end r) as [e|] eqn:He; [|discriminate].
    destruct (Z.gtb_spec ts e); [discriminate|].
    intros [= <- <-]. exists e. auto.
  - unfold Py.gt. destruct (range_end r) as [e|] eqn:He; [|discriminate].
    destruct (Z.gtb_spec ts e); [|intros [= <- <-]; exists e; auto].
    destruct (Z.gtb_spec (Z.of_nat (length ranges)) (cur + 1)).
    + destruct (Py.index ranges (cur + 1)) as [r1|] eqn:Hidx; [|discriminate].
      intros Hrec. apply IH in Hrec. destruct range' as [r'|].
      * destruct Hrec as (e' & He' & Hle & [[Heq Hcur]|[Hlt Hi]]);
          exists e'; split; auto; split; auto; right.
        -- injection Heq as <-. subst cur'. split; [lia|exact Hidx].
        -- split; [lia|exact Hi].
      * destruct Hrec as [[Heq _]|[Hlt Hlen]]; [discriminate|]. right. lia.
    + intros Hrec. apply IH in Hrec. destruct range' as [r'|].
      * destruct Hrec as (e' & He' & Hle & [[Heq _]|[Hlt Hi]]); [discriminate|].
        exists e'. split; auto. split; auto. right. split; [lia|exact Hi].
      * destruct Hrec as [[_ Hcur]|[Hlt Hlen]]; right; lia.
Qed.

Lemma after_advance_trace (ev : Event) (range : option TimeRange)
    (s s' : Analysis) (t : list action) :
  after_advance ev range s = Ok (s', t) ->
  t = (if truthy_bool (accumulate (_conf s)) then []
       else CallEndPeriodCb :: tick_calls s ++ [CallReset])
  /\ started s' = match range with
                  | Some r =>
                      match range_begin r with
                      | Some b => if timestamp ev <? b then false else started s
                      | None => started s
                      end
                  | None => started s
                  end
  /\ _period_start_ts s'
     = (if truthy_bool (accumulate (_conf s)) then _period_start_ts s
        else match range with
             | Some r =>
                 match range_begin r with
                 | Some b => if timestamp ev <? b then None
                             else Some (timestamp ev)
                 | None => Some (timestamp ev)
                 end
             | None => None
             end).
Proof.
  unfold after_advance. intros H. run_branch H.
  destruct (truthy_bool (accumulate (_conf s))) eqn:Hacc; simpl in H;
    (destruct range as [r|];
     [destruct (range_begin r); [destruct (timestamp ev <? _)|]|]);
    simpl in H; rewrite ?Hacc in H; simpl in H;
    injection H as <- <-; rewrite ?app_nil_r; auto.
Qed.

Lemma closes_tick_calls (s : Analysis) :
  closes (tick_calls s ++ [CallReset]) = 0%nat.
Proof.
  unfold closes, tick_calls.
  induction (default [] (_notification_cbs s !! TICK_CB)) as [|cb l IH]; simpl.
  - reflexivity.
  - rewrite filter_cons. simpl. destruct (decide (false = true)); [discriminate|].
    exact IH.
Qed.

(** X10: without [accumulate], an event that passes the end of the current
    range closes the window exactly once, however many ranges it skips: the
    calls are the finalize hook, the ticks of the old window, then one
    [reset].  Afterwards a period is open, starting at the event, exactly
    when the engine is still started and not ended; otherwise no period is
    open.  The open key is not touched. *)
Theorem crossing_closes_window_once
    (ev : Event) (s s' : Analysis) (t : list action) (r : TimeRange) (e : Z) :
  truthy_bool (accumulate (_conf s)) = false ->
  started s = true ->
  ended s = false ->
  Py.index (default [] (range_ts (_conf s))) (default 0 (current_ts (_conf s)))
  = Ok r ->
  range_end r = Some e ->
  e < timestamp ev ->
  _check_analysis ev s = Ok (s', t) ->
  t = CallEndPeriodCb :: tick_calls s ++ [CallReset]
  /\ closes t = 1%nat
  /\ _period_start_ts s'
     = (if started s' && negb (ended s') then Some (timestamp ev) else None)
  /\ _period_key s' = _period_key s.
Proof.
  intros Hacc Hstarted Hended Hidx Hend Hlt. unfold _check_analysis.
  assert (truthy_seq (range_ts (_conf s)) = true) as ->.
  { destruct (range_ts (_conf s)) as [[|? ?]|]; simpl in *;
      try reflexivity; unfold Py.index in Hidx; simpl in Hidx;
      repeat case_match; try discriminate; lia. }
  simpl. rewrite Hidx, Hstarted, Hend.
  destruct (Z.gtb_spec (timestamp ev) e); [|lia].
  destruct (advance_range _ _ _ _ _) as [[cur' range']|?] eqn:Hadv;
    [|discriminate].
  intros Hrun. apply seq_Ok in Hrun as (s1 & t1 & t2 & E1 & E2 & ->).
  run_branch E1. injection E1 as <- <-.
  pose proof (after_advance_conf _ _ _ _ _ E2) as [_ Hend'].
  pose proof (after_advance_shape _ _ _ _ _ E2) as Hshape.
  apply after_advance_trace in E2 as (-> & Hst & Hstart).
  simpl in *. rewrite Hacc in *. simpl.
  split; [reflexivity|]. split.
  { unfold closes. rewrite filter_cons. simpl.
    destruct (decide (true = true)); [|congruence]. simpl. f_equal.
    apply closes_tick_calls. }
  split; [|now rewrite Hshape].
  rewrite Hstart, Hst, Hend', Hstarted, Hended.
  destruct range' as [r'|]; [|reflexivity].
  destruct (range_begin r'); [destruct (timestamp ev <? _)|]; reflexivity.
Qed.

Lemma crossing_closes_window_once_witness :
  exists s',
    _check_analysis (ev_at 45)
      (with_started true
         (with_period_start_ts (Some 10) (subscribed (conf_ranges None))))
    = Ok (s', [CallEndPeriodCb; CallNotification 7%nat TICK_CB (Some 10) None;
               CallReset])
    /\ ended s' = true
    /\ _period_start_ts s' = None.
Proof.
  eexists. split; [vm_compute; reflexivity|]. split; [reflexivity|].
  refine (proj1 (proj2 (proj2 (crossing_closes_window_once (ev_at 45)
    (with_started true
       (with_period_start_ts (Some 10) (subscribed (conf_ranges None))))
    _ _ (mkTimeRange (Some 10) (Some 20)) 20
    eq_refl eq_refl eq_refl eq_refl eq_refl _ eq_refl)))).
  reflexivity.
Defined.

Lemma index_truthy {A : Type} (o : option (list A)) (i : Z) (x : A) :
  Py.index (default [] o) i = Ok x -> truthy_seq o = true.
Proof.
  intros H. apply index_inv in H.
  destruct o as [[|? ?]|]; simpl in *; try reflexivity; lia.
Qed.

(** X11: an event that passes the end of the current range moves the index
    forward, to the first later range whose end the event has not passed, or
    past the list.  Past the list the engine is ended; otherwise it is not,
    and it stays started exactly when that range has already begun. *)
Theorem crossing_lands_on_live_range
    (ev : Event) (s s' : Analysis) (t : list action) (r : TimeRange) (e : Z) :
  started s = true ->
  ended s = false ->
  Py.index (default [] (range_ts (_conf s))) (default 0 (current_ts (_conf s)))
  = Ok r ->
  range_end r = Some e ->
  e < timestamp ev ->
  _check_analysis ev s = Ok (s', t) ->
  exists c',
    current_ts (_conf s') = Some c'
    /\ default 0 (current_ts (_conf s)) < c'
    /\ ((ended s' = true
         /\ Z.of_nat (length (default [] (range_ts (_conf s)))) <= c')
        \/ (ended s' = false
            /\ exists r' e',
                 Py.index (default [] (range_ts (_conf s))) c' = Ok r'
                 /\ range_end r' = Some e'
                 /\ timestamp ev <= e'
                 /\ started s'
                    = match range_begin r' with
                      | Some b => negb (timestamp ev <? b)
                      | None => true
                      end)).
Proof.
  intros Hstarted Hended Hidx Hend Hlt. unfold _check_analysis.
  rewrite (index_truthy _ _ _ Hidx). simpl. rewrite Hidx, Hstarted, Hend.
  destruct (Z.gtb_spec (timestamp ev) e); [|lia].
  destruct (advance_range _ _ _ _ _) as [[cur' range']|?] eqn:Hadv;
    [|discriminate].
  intros Hrun. apply seq_Ok in Hrun as (s1 & t1 & t2 & E1 & E2 & ->).
  run_branch E1. injection E1 as <- <-.
  pose proof (after_advance_conf _ _ _ _ _ E2) as [Hconf Hend'].
  apply after_advance_trace in E2 as (_ & Hst & _).
  apply advance_range_post in Hadv.
  exists cur'. rewrite Hconf. simpl in *. split; [reflexivity|].
  destruct range' as [r'|].
  - destruct Hadv as (e' & He' & Hle & [[[= <-] _]|[Hcur Hi]]).
    { rewrite Hend in He'. injection He' as <-. lia. }
    split; [exact Hcur|]. right. split; [congruence|].
    exists r', e'. repeat split; auto.
    rewrite Hst, Hstarted.
    destruct (range_begin r'); [destruct (timestamp ev <? _)|]; reflexivity.
  - destruct Hadv as [[? _]|[Hcur Hlen]]; [discriminate|].
    split; [exact Hcur|]. left. auto.
Qed.

Lemma crossing_lands_on_live_range_witness :
  exists s',
    _check_analysis (ev_at 25)
      (with_started true
         (with_period_start_ts (Some 10) (subscribed (conf_ranges None))))
    = Ok (s', [CallEndPeriodCb; CallNotification 7%nat TICK_CB (Some 10) None;
               CallReset])
    /\ current_ts (_conf s') = Some 1
    /\ started s' = false.
Proof.
  eexists. split; [vm_compute; reflexivity|].
  destruct (crossing_lands_on_live_range (ev_at 25)
    (with_started true
       (with_period_start_ts (Some 10) (subscribed (conf_ranges None))))
    _ _ (mkTimeRange (Some 10) (Some 20)) 20
    eq_refl eq_refl eq_refl eq_refl ltac:(reflexivity) eq_refl)
    as (c' & Hc & _).
  split; [reflexivity|reflexivity].
Defined.

(** X12: a range without an end bound anywhere but in first position makes
    the engine fail when the range before it is passed: the loop compares the
    event's timestamp with [None], and [process_event] raises
    [TypeError]. *)
Theorem open_ended_later_range_raises
    (ev : Event) (s : Analysis) (cur e : Z) (r r' : TimeRange) :
  started s = true ->
  current_ts (_conf s) = Some cur ->
  Py.index (default [] (range_ts (_conf s))) cur = Ok r ->
  range_end r = Some e ->
  e < timestamp ev ->
  Py.index (default [] (range_ts (_conf s))) (cur + 1) = Ok r' ->
  range_end r' = None ->
  process_event ev s = Raise TypeError.
Proof.
  intros Hstarted Hcur Hidx Hend Hlt Hidx' Hend'.
  unfold process_event, gating, seq, modify, when, skip, _check_analysis.
  simpl. rewrite Hcur. simpl.
  rewrite (index_truthy _ _ _ Hidx), Hcur. simpl.
  rewrite Hidx, Hstarted, Hend.
  destruct (Z.gtb_spec (timestamp ev) e); [|lia].
  pose proof (index_inv _ _ _ Hidx') as Hin.
  destruct (Z.to_nat _) as [|fuel] eqn:Hfuel; [lia|].
  simpl. rewrite Hend. simpl.
  destruct (Z.gtb_spec (timestamp ev) e); [|lia].
  destruct (Z.gtb_spec (Z.of_nat (length (default [] (range_ts (_conf s)))))
              (cur + 1)); [|lia].
  rewrite Hidx'. destruct fuel; simpl; rewrite Hend'; reflexivity.
Qed.

Lemma open_ended_later_range_raises_witness :
  process_event (ev_at 25) started_before_open_range = Raise TypeError.
Proof.
  refine (open_ended_later_range_raises (ev_at 25) started_before_open_range
            0 20 (mkTimeRange (Some 10) (Some 20)) (mkTimeRange (Some 30) None)
            eq_refl eq_refl eq_refl eq_refl _ eq_refl eq_refl).
  reflexivity.
Defined.

(** ** Outside and inside a range *)

Lemma set_current_ts_id (cf : AnalysisConfig) (c : Z) :
  current_ts cf = Some c -> set_current_ts (Some c) cf = cf.
Proof. destruct cf. simpl. now intros ->. Qed.

Lemma with_conf_id (s : Analysis) (c : Z) :
  current_ts (_conf s) = Some c -> with_conf (set_current_ts (Some c)) s = s.
Proof.
  intros H. destruct s. unfold with_conf. simpl in *.
  now rewrite set_current_ts_id.
Qed.

(** X13: an event before the begin of the current range is dropped: an
    engine that is not started makes no call and runs neither the keyed
    periods nor the refresh interval, whatever is configured.  The last
    event timestamp is recorded and the index into the range list, if it was
    still [None], becomes 0; nothing else changes.  This covers the first
    event of a run. *)
Theorem event_before_range_is_dropped
    (ev : Event) (s : Analysis) (b : Z) (r : TimeRange) :
  started s = false ->
  Py.index (default [] (range_ts (_conf s))) (default 0 (current_ts (_conf s)))
  = Ok r ->
  range_begin r = Some b ->
  timestamp ev < b ->
  process_event ev s
  = Ok (with_conf (set_current_ts (Some (default 0 (current_ts (_conf s)))))
          (with_last_event_ts (Some (timestamp ev)) s), []).
Proof.
  intros Hstarted Hidx Hbegin Hlt.
  assert (is_none (current_ts (_conf s)) && no_first_begin (_conf s) = false)
    as Hwhen.
  { destruct (current_ts (_conf s)) as [cur|]; [reflexivity|]. simpl in *.
    unfold no_first_begin.
    destruct (range_ts (_conf s)) as [[|r0 rest]|]; simpl in *;
      try (unfold Py.index in Hidx; simpl in Hidx; discriminate).
    unfold Py.index in Hidx. simpl in Hidx. injection Hidx as ->.
    now rewrite Hbegin. }
  unfold process_event, gating, seq, modify, when, skip, _check_analysis, modes.
  simpl. rewrite Hwhen. simpl.
  rewrite (index_truthy _ _ _ Hidx). simpl.
  rewrite Hidx, Hstarted, Hbegin.
  destruct (Z.geb_spec (timestamp ev) b); [lia|]. simpl.
  rewrite Hstarted. reflexivity.
Qed.

Lemma event_before_range_is_dropped_witness :
  process_event (marker "begin" 5 "A")
    (Analysis_init
       (mkAnalysisConfig (Some 1) (Some "begin") None (Some ["k"]) (Some ["k"])
          None (Some two_ranges) None None))
  = Ok (with_conf (set_current_ts (Some 0))
          (with_last_event_ts (Some 5)
             (Analysis_init
                (mkAnalysisConfig (Some 1) (Some "begin") None (Some ["k"])
                   (Some ["k"]) None (Some two_ranges) None None))), []).
Proof.
  refine (event_before_range_is_dropped (marker "begin" 5 "A")
            (Analysis_init
               (mkAnalysisConfig (Some 1) (Some "begin") None (Some ["k"])
                  (Some ["k"]) None (Some two_ranges) None None))
            10 (mkTimeRange (Some 10) (Some 20))
            eq_refl eq_refl eq_refl _).
  reflexivity.
Defined.

(** X14: the first event at or after the begin of the current range starts
    the engine.  If no period is open it opens one at the event and calls
    [reset] once; if a period is still open (kept across a gap by
    [accumulate]) it is resumed as it is, without a call. *)
Theorem range_begin_starts_engine
    (ev : Event) (s : Analysis) (b : Z) (r : TimeRange) :
  started s = false ->
  Py.index (default [] (range_ts (_conf s))) (default 0 (current_ts (_conf s)))
  = Ok r ->
  range_begin r = Some b ->
  b <= timestamp ev ->
  exists s',
    _check_analysis ev s
    = Ok (s', if is_none (_period_start_ts s) then [CallReset] else [])
    /\ started s' = true
    /\ ended s' = ended s
    /\ _period_start_ts s'
       = (if is_none (_period_start_ts s) then Some (timestamp ev)
          else _period_start_ts s).
Proof.
  intros Hstarted Hidx Hbegin Hle. unfold _check_analysis.
  rewrite (index_truthy _ _ _ Hidx). simpl. rewrite Hidx, Hstarted, Hbegin.
  destruct (Z.geb_spec (timestamp ev) b); [|lia].
  unfold seq, modify, when, reset, emit, skip. simpl.
  destruct (_period_start_ts s) eqn:Hst; simpl;
    (eexists; split; [reflexivity|]); simpl; rewrite ?Hst; auto.
Qed.

Lemma range_begin_starts_engine_witness :
  exists s',
    _check_analysis (ev_at 35)
      (with_period_start_ts (Some 10)
         (with_conf (set_current_ts (Some 1)) (subscribed (conf_ranges (Some true)))))
    = Ok (s', [])
    /\ started s' = true
    /\ _period_start_ts s' = Some 10.
Proof.
  destruct (range_begin_starts_engine (ev_at 35)
    (with_period_start_ts (Some 10)
       (with_conf (set_current_ts (Some 1)) (subscribed (conf_ranges (Some true)))))
    30 (mkTimeRange (Some 30) (Some 40)) eq_refl eq_refl eq_refl
    ltac:(vm_compute; discriminate)) as (s' & Hrun & Hstarted & _ & Hstart).
  exists s'. auto.
Defined.

(** ** Engines that never end *)

Lemma _handle_period_event_total (ev : Event) (s : Analysis) :
  exists s' t, _handle_period_event ev s = Ok (s', t).
Proof.
  unfold _handle_period_event, seq, modify.
  rewrite ?_end_period_eq, ?_begin_period_eq. simpl.
  repeat case_match; try discriminate; eauto;
    rewrite ?_end_period_eq in *; simplify_eq; eauto.
Qed.

Lemma modes_total (ev : Event) (s : Analysis) :
  exists s' t, modes ev s = Ok (s', t) /\ modes_frame s s'.
Proof.
  assert (exists s' t, modes ev s = Ok (s', t)) as (s' & t & H).
  { unfold modes.
    destruct (negb (started s) || ended s); [unfold skip; eauto|].
    destruct (negb (is_none (period_begin_ev_name _)));
      [apply _handle_period_event_total|].
    destruct (refresh_period (_conf s)) as [p|] eqn:Hp; simpl;
      [|unfold skip; eauto].
    unfold _check_refresh. rewrite Hp.
    destruct (_period_start_ts s) as [st|]; simpl;
      [|unfold modify; eauto].
    destruct (negb (negb (st =? 0))); [unfold modify; eauto|].
    unfold seq, modify, skip. rewrite _end_period_eq.
    destruct (_ >=? _); eauto. }
  exists s', t. split; [exact H|]. eapply modes_modes_frame; exact H.
Qed.

Lemma process_event_open_ended
    (ev : Event) (s : Analysis) (cur : Z) (r : TimeRange) :
  started s = true ->
  ended s = false ->
  current_ts (_conf s) = Some cur ->
  Py.index (default [] (range_ts (_conf s))) cur = Ok r ->
  range_end r = None ->
  exists s' t,
    process_event ev s = Ok (s', t)
    /\ started s' = true /\ ended s' = false /\ _conf s' = _conf s.
Proof.
  intros Hstarted Hended Hcur Hidx Hend.
  assert (gating ev s = Ok (with_last_event_ts (Some (timestamp ev)) s, []))
    as Hg.
  { unfold gating, seq, modify, when, skip, _check_analysis.
    simpl. rewrite Hcur. simpl.
    rewrite (index_truthy _ _ _ Hidx), Hcur. simpl.
    rewrite Hidx, Hstarted, Hend.
    destruct s as [cf ? ? ? ? ? ? ?]. unfold with_conf, with_last_event_ts.
    simpl in *. now rewrite set_current_ts_id. }
  destruct (modes_total ev (with_last_event_ts (Some (timestamp ev)) s))
    as (s' & t & Hm & [Hconf Hst Hen _ _ _]).
  exists s', t. unfold process_event, seq. rewrite Hg, Hm. simpl in *.
  repeat split; congruence.
Qed.

(** X15: a started engine whose current range has no end bound stays in it
    for good: every stream is processed without an exception, the engine is
    still started and not ended afterwards, and the index has not moved. *)
Theorem open_ended_range_never_ends
    (evs : list Event) (s : Analysis) (cur : Z) (r : TimeRange) :
  started s = true ->
  ended s = false ->
  current_ts (_conf s) = Some cur ->
  Py.index (default [] (range_ts (_conf s))) cur = Ok r ->
  range_end r = None ->
  exists s' t,
    run evs s = Ok (s', t)
    /\ started s' = true /\ ended s' = false /\ _conf s' = _conf s.
Proof.
  revert s. induction evs as [|ev rest IH]; intros s Hstarted Hended Hcur Hidx Hend.
  - exists s, []. auto.
  - destruct (process_event_open_ended ev s cur r)
      as (s1 & t1 & H1 & Hst & Hen & Hconf); auto.
    destruct (IH s1) as (s2 & t2 & H2 & ? & ? & Hconf2); auto;
      try (rewrite Hconf; assumption).
    exists s2, (t1 ++ t2). simpl. unfold seq. rewrite H1, H2.
    repeat split; congruence.
Qed.

Lemma open_ended_range_never_ends_witness :
  exists s' t,
    run (map ev_at [35; 1000; 1000000])
      (with_conf (set_current_ts (Some 1)) started_before_open_range)
    = Ok (s', t)
    /\ started s' = true /\ ended s' = false
    /\ _conf s' = _conf (with_conf (set_current_ts (Some 1)) started_before_open_range).
Proof.
  refine (open_ended_range_never_ends (map ev_at [35; 1000; 1000000])
            (with_conf (set_current_ts (Some 1)) started_before_open_range)
            1 (mkTimeRange (Some 30) None)
            eq_refl eq_refl eq_refl eq_refl eq_refl).
Defined.

Lemma process_event_without_ranges (ev : Event) (s : Analysis) :
  truthy_seq (range_ts (_conf s)) = false ->
  exists s' t,
    process_event ev s = Ok (s', t)
    /\ ended s' = ended s /\ _conf s' = _conf s
    /\ started s' = started s || is_none (current_ts (_conf s)).
Proof.
  intros Hranges.
  assert (no_first_begin (_conf s) = true) as Hfirst.
  { unfold no_first_begin. destruct (range_ts (_conf s)) as [[|? ?]|];
      simpl in *; congruence. }
  destruct (gating ev s) as [[s1 t1]|e] eqn:Hg.
  2: { revert Hg. unfold gating, seq, modify, when, skip, _check_analysis.
       simpl. rewrite Hfirst, andb_true_r.
       destruct (is_none (current_ts (_conf s))); simpl;
         rewrite Hranges; discriminate. }
  assert (ended s1 = ended s /\ _conf s1 = _conf s
          /\ started s1 = started s || is_none (current_ts (_conf s)))
    as (He & Hc & Hs).
  { revert Hg. unfold gating, seq, modify, when, skip, _check_analysis.
    simpl. rewrite Hfirst, andb_true_r.
    destruct (is_none (current_ts (_conf s))); simpl; rewrite Hranges; simpl;
      intros [= <- _]; simpl; rewrite ?orb_true_r, ?orb_false_r; auto. }
  destruct (modes_total ev s1) as (s' & t & Hm & [Hconf Hst Hen _ _ _]).
  exists s', (t1 ++ t). unfold process_event, seq. rewrite Hg, Hm.
  repeat split; congruence.
Qed.

(** X16: without a range list the engine never fails and never ends:
    every stream is processed without an exception, [ended] keeps its value
    and the configuration is not changed at all ([current_ts] stays as it
    is). *)
Theorem no_ranges_never_ends (evs : list Event) (s : Analysis) :
  truthy_seq (range_ts (_conf s)) = false ->
  exists s' t,
    run evs s = Ok (s', t) /\ ended s' = ended s /\ _conf s' = _conf s.
Proof.
  revert s. induction evs as [|ev rest IH]; intros s Hranges.
  - exists s, []. auto.
  - destruct (process_event_without_ranges ev s Hranges)
      as (s1 & t1 & H1 & Hen & Hconf & _).
    destruct (IH s1) as (s2 & t2 & H2 & ? & ?); [now rewrite Hconf|].
    exists s2, (t1 ++ t2). simpl. unfold seq. rewrite H1, H2.
    repeat split; congruence.
Qed.

Lemma no_ranges_never_ends_witness :
  exists s' t,
    run (map ev_at [0; 50; 150; 260]) (subscribed (conf_refresh 100)) = Ok (s', t)
    /\ ended s' = false
    /\ _conf s' = conf_refresh 100.
Proof.
  refine (no_ranges_never_ends (map ev_at [0; 50; 150; 260])
            (subscribed (conf_refresh 100)) eq_refl).
Defined.

(** ** Keys of period markers *)

Lemma key_values_Forall2 (ev : Event) (key_fields : list string) (k : list value) :
  key_values ev key_fields = Some k
  <-> Forall2 (fun f v => fields ev !! f = Some v) key_fields k.
Proof.
  revert k. induction key_fields as [|f rest IH]; intros k; simpl.
  - split; [intros [= <-]; constructor | intros H; inversion H; reflexivity].
  - split.
    + destruct (fields ev !! f) as [v|] eqn:Hf; [|discriminate].
      destruct (key_values ev rest) as [vs|]; [|discriminate].
      intros [= <-]. constructor; [exact Hf | now apply IH].
    + intros H. inversion H as [|? v ? vs Hf Hrest]; subst.
      rewrite Hf. apply IH in Hrest. now rewrite Hrest.
Qed.

(** X17: [_get_period_event_key] returns a key exactly when at least one
    key field is configured and the event has every one of them; the key
    then holds the event's values of the fields, one per field and in the
    order of the fields. *)
Theorem _get_period_event_key_values
    (ev : Event) (kf : option (list string)) (k : list value) :
  _get_period_event_key ev kf = Some k
  <-> truthy_seq kf = true
      /\ Forall2 (fun f v => fields ev !! f = Some v) (default [] kf) k.
Proof.
  unfold _get_period_event_key.
  destruct (truthy_seq kf); simpl.
  - rewrite key_values_Forall2. tauto.
  - split; [discriminate | intros [? _]; discriminate].
Qed.

(** X18: while no period is open, a begin marker that carries all the key
    fields opens a period under its key at its timestamp and calls [reset]
    once; unless [period_key_value] is set and differs from the items of the
    key rendered by [str], in which case the marker changes nothing. *)
Theorem begin_marker_opens_period (ev : Event) (s : Analysis) (k : list value) :
  truthy_seq (_period_key s) = false ->
  str_eq (name ev) (period_begin_ev_name (_conf s)) = true ->
  _get_period_event_key ev (period_begin_key_fields (_conf s)) = Some k ->
  _handle_period_event ev s
  = if truthy_seq (period_key_value (_conf s))
       && negb (bool_decide (period_key_value (_conf s) = Some (map Py.str k)))
    then Ok (s, [])
    else Ok (opened k (timestamp ev) s, [CallReset]).
Proof.
  intros Hidle Hname Hkey. unfold _handle_period_event.
  pose proof (_get_period_event_key_truthy ev (period_begin_key_fields (_conf s)))
    as Htruthy.
  rewrite Hidle, Hname, Hkey in *. simpl in *. rewrite Htruthy. simpl.
  destruct (_ && _); reflexivity.
Qed.

Lemma begin_marker_opens_period_witness :
  _handle_period_event (mkEvent 4 "begin" {[ "k" := VInt 3 ]})
    (Analysis_init
       (mkAnalysisConfig None (Some "begin") None (Some ["k"]) (Some ["k"])
          (Some ["3"]) None None None))
  = Ok (opened [VInt 3] 4
          (Analysis_init
             (mkAnalysisConfig None (Some "begin") None (Some ["k"]) (Some ["k"])
                (Some ["3"]) None None None)), [CallReset]).
Proof.
  refine (begin_marker_opens_period (mkEvent 4 "begin" {[ "k" := VInt 3 ]})
            (Analysis_init
               (mkAnalysisConfig None (Some "begin") None (Some ["k"])
                  (Some ["k"]) (Some ["3"]) None None None))
            [VInt 3] eq_refl eq_refl _).
  vm_compute. reflexivity.
Defined.

(** X19: with an end marker name configured, an open period is closed by the
    end marker only: every event of another name, the begin marker included
    even under the same key, leaves the engine as it is and makes no call;
    periods neither nest nor rotate. *)
Theorem open_period_ignores_other_events (ev : Event) (s : Analysis) :
  truthy_seq (_period_key s) = true ->
  truthy_str (period_end_ev_name (_conf s)) = true ->
  str_eq (name ev) (period_end_ev_name (_conf s)) = false ->
  _handle_period_event ev s = Ok (s, []).
Proof.
  intros Hopen Hend Hname. unfold _handle_period_event.
  rewrite Hopen, Hend, Hname.
  repeat case_match; reflexivity.
Qed.

Lemma open_period_ignores_other_events_witness :
  _handle_period_event (marker "begin" 2 "A") (open_A (Some "end"))
  = Ok (open_A (Some "end"), []).
Proof.
  refine (open_period_ignores_other_events (marker "begin" 2 "A")
            (open_A (Some "end")) eq_refl eq_refl eq_refl).
Defined.

Lemma truthy_seq_default {A : Type} (k : option (list A)) :
  negb (truthy_seq k) = false -> truthy_seq (Some (default [] k)) = true.
Proof. destruct k as [[|? ?]|]; simpl; congruence. Qed.

Lemma _handle_period_event_key_inv (ev : Event) (s s' : Analysis) (t : list action) :
  _handle_period_event ev s = Ok (s', t) -> key_inv s -> key_inv s'.
Proof.
  unfold _handle_period_event, key_inv. intros H Hinv.
  repeat case_match; run_branch H; simplify_eq;
    cbn [_period_key with_period_key with_period_start_ts];
    first [ solve [intuition congruence]
          | right; now apply truthy_seq_default ].
Qed.

Lemma _check_refresh_key (ev : Event) (s s' : Analysis) (t : list action) :
  _check_refresh ev s = Ok (s', t) -> _period_key s' = _period_key s.
Proof.
  unfold _check_refresh. intros H.
  repeat case_match; try discriminate; run_branch H; now simplify_eq.
Qed.

Lemma modes_key_inv (ev : Event) (s s' : Analysis) (t : list action) :
  modes ev s = Ok (s', t) -> key_inv s -> key_inv s'.
Proof.
  unfold modes. intros H Hinv.
  destruct (negb (started s) || ended s); [run_branch H; now simplify_eq|].
  destruct (negb (is_none (period_begin_ev_name _)));
    [eapply _handle_period_event_key_inv; eassumption|].
  destruct (negb (is_none (refresh_period _)));
    [|run_branch H; now simplify_eq].
  apply _check_refresh_key in H. unfold key_inv. now rewrite H.
Qed.

(** X20: the open key is never an empty tuple: over any stream, an engine
    whose key is [None] or has an item ends with a key that is [None] or has
    an item, so the truth value of the key tells an open period from none. *)
Theorem open_key_never_empty
    (evs : list Event) (s s' : Analysis) (t : list action) :
  key_inv s -> run evs s = Ok (s', t) -> key_inv s'.
Proof.
  revert s t. induction evs as [|ev rest IH]; intros s t Hinv H; simpl in H.
  - run_branch H. now simplify_eq.
  - apply seq_Ok in H as (s1 & t1 & t2 & E1 & E2 & _).
    eapply IH; [|exact E2].
    unfold process_event in E1.
    apply seq_Ok in E1 as (s2 & t3 & t4 & Hg & Hm & _).
    apply gating_gating_frame in Hg as [_ Hkey _ _].
    eapply modes_key_inv; [exact Hm|].
    unfold key_inv. now rewrite Hkey.
Qed.

Lemma open_key_never_empty_witness :
  exists s',
    run [marker "begin" 1 "A"; marker "end" 2 "A"; marker "begin" 3 "B"]
      (subscribed (conf_keyed (Some "end") (Some ["k"]) (Some ["k"])))
    = Ok (s', [CallReset; CallEndPeriodCb;
               CallNotification 7%nat TICK_CB (Some 2) (Some 2); CallReset])
    /\ key_inv s'.
Proof.
  eexists. split; [vm_compute; reflexivity|].
  refine (open_key_never_empty
            [marker "begin" 1 "A"; marker "end" 2 "A"; marker "begin" 3 "B"]
            (subscribed (conf_keyed (Some "end") (Some ["k"]) (Some ["k"])))
            _ _ (or_introl eq_refl) _).
  vm_compute. reflexivity.
Defined.

(** ** The refresh interval inside a range *)

(** X21: in refresh mode, inside a range without an end bound and with a
    window open since a non-zero timestamp, an event closes the window
    exactly when the refresh period has elapsed since the window's start.
    The close sends every tick subscriber the window's start and the
    event's own timestamp, and the next window starts at the event; an
    earlier event only records its timestamp. *)
Theorem refresh_closes_after_period
    (ev : Event) (s : Analysis) (cur st p : Z) (r : TimeRange) :
  started s = true ->
  ended s = false ->
  current_ts (_conf s) = Some cur ->
  Py.index (default [] (range_ts (_conf s))) cur = Ok r ->
  range_end r = None ->
  period_begin_ev_name (_conf s) = None ->
  refresh_period (_conf s) = Some p ->
  _period_start_ts s = Some st ->
  st <> 0 ->
  process_event ev s
  = if timestamp ev >=? st + p
    then Ok (with_period_start_ts (Some (timestamp ev))
               (with_last_event_ts (Some (timestamp ev)) s),
             CallEndPeriodCb
             :: map (fun cb => CallNotification cb TICK_CB (Some st)
                                 (Some (timestamp ev)))
                  (default [] (_notification_cbs s !! TICK_CB)))
    else Ok (with_last_event_ts (Some (timestamp ev)) s, []).
Proof.
  intros Hstarted Hended Hcur Hidx Hend Hbegin Hrefresh Hstart Hst.
  destruct s as [[rp bn en bk ek kv rg ct acc] key start last subs cbs sd ed].
  simpl in *. subst.
  unfold process_event, gating, seq, modify, when, skip, _check_analysis, modes.
  simpl. rewrite (index_truthy _ _ _ Hidx). simpl. rewrite Hidx, Hend. simpl.
  unfold _check_refresh. simpl.
  destruct (Z.eqb_spec st 0); [contradiction|]. simpl.
  destruct (timestamp ev >=? st + p); [|reflexivity].
  unfold seq, modify. rewrite _end_period_eq. unfold tick_calls. simpl.
  now rewrite app_nil_r.
Qed.

Lemma refresh_closes_after_period_witness :
  process_event (ev_at 150)
    (with_period_start_ts (Some 50)
       (with_notification_cbs {[ TICK_CB := [7%nat] ]}
          (with_conf (set_current_ts (Some 0))
             (with_started true
                (Analysis_init
                   (mkAnalysisConfig (Some 100) None None None None None
                      (Some [mkTimeRange None None]) None None))))))
  = Ok (with_period_start_ts (Some 150)
          (with_last_event_ts (Some 150)
             (with_period_start_ts (Some 50)
                (with_notification_cbs {[ TICK_CB := [7%nat] ]}
                   (with_conf (set_current_ts (Some 0))
                      (with_started true
                         (Analysis_init
                            (mkAnalysisConfig (Some 100) None None None None None
                               (Some [mkTimeRange None None]) None None))))))),
        [CallEndPeriodCb; CallNotification 7%nat TICK_CB (Some 50) (Some 150)]).
Proof.
  refine (refresh_closes_after_period (ev_at 150)
    (with_period_start_ts (Some 50)
       (with_notification_cbs {[ TICK_CB := [7%nat] ]}
          (with_conf (set_current_ts (Some 0))
             (with_started true
                (Analysis_init
                   (mkAnalysisConfig (Some 100) None None None None None
                      (Some [mkTimeRange None None]) None None))))))
    0 50 100 (mkTimeRange None None)
    eq_refl eq_refl eq_refl eq_refl eq_refl eq_refl eq_refl eq_refl _).
  discriminate.
Defined.

(** ** [reset] under accumulate *)

Lemma resets_app (t1 t2 : list action) :
  resets (t1 ++ t2) = (resets t1 + resets t2)%nat.
Proof. unfold resets. now rewrite filter_app, length_app. Qed.

Lemma resets_tick_calls (s : Analysis) : resets (tick_calls s) = 0%nat.
Proof.
  unfold resets, tick_calls.
  induction (default [] (_notification_cbs s !! TICK_CB)) as [|cb l IH]; simpl.
  - reflexivity.
  - rewrite filter_cons. simpl. destruct (decide (false = true)); [discriminate|].
    exact IH.
Qed.

Lemma _check_analysis_reset_budget (ev : Event) (s s' : Analysis) (t : list action) :
  truthy_bool (accumulate (_conf s)) = true ->
  _check_analysis ev s = Ok (s', t) ->
  (resets t + reset_budget s' <= reset_budget s)%nat.
Proof.
  intros Hacc H. destruct (started s) eqn:Hstarted.
  { apply _check_analysis_accumulate in H as (-> & Hstart & _); auto.
    unfold reset_budget. rewrite Hstart. simpl. lia. }
  revert H. unfold _check_analysis, reset_budget.
  destruct (negb (truthy_seq _)).
  { intros H. run_branch H. simplify_eq. simpl. lia. }
  destruct (Py.index _ _) as [range|e]; [|discriminate].
  simpl. rewrite Hstarted.
  destruct (range_begin range); [|intros H; run_branch H; simplify_eq; simpl; lia].
  destruct (timestamp ev >=? _); [|intros H; run_branch H; simplify_eq; simpl; lia].
  intros H. run_branch H.
  destruct (_period_start_ts s) eqn:Hst; simpl in H; injection H as <- <-;
    simpl; rewrite ?Hst; simpl; lia.
Qed.

Lemma modes_reset_budget (ev : Event) (s s' : Analysis) (t : list action) :
  period_begin_ev_name (_conf s) = None ->
  modes ev s = Ok (s', t) ->
  (resets t + reset_budget s' <= reset_budget s)%nat.
Proof.
  intros Hbegin. unfold modes, _check_refresh, reset_budget. rewrite Hbegin.
  simpl. intros H.
  destruct (negb (started s) || ended s);
    [run_branch H; simplify_eq; simpl; lia|].
  destruct (negb (is_none (refresh_period _)));
    [|run_branch H; simplify_eq; simpl; lia].
  destruct (_period_start_ts s) as [st|] eqn:Hst; simpl in H.
  - destruct (negb (negb (st =? 0)));
      [run_branch H; simplify_eq; simpl; lia|].
    destruct (refresh_period _); [|discriminate].
    destruct (timestamp ev >=? _); run_branch H; simplify_eq; simpl;
      rewrite ?Hst; simpl; try lia.
    rewrite app_nil_r.
    change (CallEndPeriodCb :: tick_calls s) with ([CallEndPeriodCb] ++ tick_calls s).
    rewrite resets_app, resets_tick_calls. simpl. lia.
  - run_branch H. simplify_eq. simpl. lia.
Qed.

Lemma process_event_reset_budget (ev : Event) (s s' : Analysis) (t : list action) :
  truthy_bool (accumulate (_conf s)) = true ->
  period_begin_ev_name (_conf s) = None ->
  process_event ev s = Ok (s', t) ->
  (resets t + reset_budget s' <= reset_budget s)%nat.
Proof.
  intros Hacc Hbegin H. unfold process_event in H.
  apply seq_Ok in H as (s1 & t1 & t2 & Hg & Hm & ->).
  pose proof (gating_gating_frame _ _ _ _ Hg) as [Hconf _ _ _].
  apply modes_reset_budget in Hm;
    [|rewrite <- Hbegin; exact (f_equal period_begin_ev_name Hconf)].
  unfold gating in Hg.
  apply seq_Ok in Hg as (s2 & t3 & t4 & E1 & Hg & ->).
  apply seq_Ok in Hg as (s3 & t5 & t6 & E2 & E3 & ->).
  run_branch E1. injection E1 as <- <-.
  assert (resets t5 = 0%nat /\ (reset_budget s3 <= reset_budget s)%nat
          /\ accumulate (_conf s3) = accumulate (_conf s)) as (Ht5 & Hb & Ha).
  { run_branch E2. destruct (is_none _ && _); injection E2 as <- <-;
      unfold reset_budget; simpl; repeat split; try lia;
      destruct (is_none (_period_start_ts s)); lia. }
  apply _check_analysis_reset_budget in E3; [|now rewrite Ha].
  rewrite !resets_app, Ht5. simpl. lia.
Qed.

(** X22: under [accumulate], and without the keyed-period mode, [reset] is
    called at most once over any stream, and only if no period has been
    opened before: the calls to [reset] and the one the engine still owes
    never exceed what it owed at the start. *)
Theorem accumulate_resets_at_most_once
    (evs : list Event) (s s' : Analysis) (t : list action) :
  truthy_bool (accumulate (_conf s)) = true ->
  period_begin_ev_name (_conf s) = None ->
  run evs s = Ok (s', t) ->
  (resets t + reset_budget s' <= reset_budget s)%nat
  /\ (resets t <= 1)%nat.
Proof.
  intros Hacc Hbegin H.
  assert (resets t + reset_budget s' <= reset_budget s)%nat as Hle.
  { revert s t Hacc Hbegin H.
    induction evs as [|ev rest IH]; intros s t Hacc Hbegin H; simpl in H.
    - run_branch H. simplify_eq. simpl. lia.
    - apply seq_Ok in H as (s1 & t1 & t2 & E1 & E2 & ->).
      pose proof (process_event_conf _ _ _ _ E1) as Hconf.
      apply process_event_reset_budget in E1; auto.
      apply IH in E2; [|rewrite Hconf; assumption..].
      rewrite resets_app. lia. }
  split; [exact Hle|].
  unfold reset_budget in Hle at 2. destruct (is_none _); lia.
Qed.

Lemma accumulate_resets_at_most_once_witness :
  exists s',
    run (map ev_at [5; 10; 15; 25; 35; 45]) (subscribed (conf_ranges (Some true)))
    = Ok (s', [CallReset])
    /\ (resets [CallReset] + reset_budget s' <= 1)%nat.
Proof.
  eexists. split; [vm_compute; reflexivity|].
  refine (proj1 (accumulate_resets_at_most_once
                   (map ev_at [5; 10; 15; 25; 35; 45])
                   (subscribed (conf_ranges (Some true))) _ [CallReset]
                   eq_refl eq_refl _)).
  vm_compute. reflexivity.
Defined.

(** ** What a notification carries *)

Lemma emits_under_skip (ts : Z) : emits_under (last_at ts) (tick_ending_at ts) skip.
Proof. intros s s' t Hs [= <- <-]. split; [constructor|exact Hs]. Qed.

Lemma emits_under_modify (ts : Z) (f : Analysis -> Analysis) :
  (forall s, _last_event_ts (f s) = _last_event_ts s) ->
  emits_under (last_at ts) (tick_ending_at ts) (modify f).
Proof.
  intros Hf s s' t Hs [= <- <-]. split; [constructor|].
  unfold last_at. now rewrite Hf.
Qed.

Lemma emits_under_seq (ts : Z) (c1 c2 : cmd) :
  emits_under (last_at ts) (tick_ending_at ts) c1 ->
  emits_under (last_at ts) (tick_ending_at ts) c2 ->
  emits_under (last_at ts) (tick_ending_at ts) (c1 >>> c2).
Proof.
  intros H1 H2 s s' t Hs H.
  apply seq_Ok in H as (s1 & t1 & t2 & E1 & E2 & ->).
  destruct (H1 _ _ _ Hs E1) as [Ht1 Hs1].
  destruct (H2 _ _ _ Hs1 E2) as [Ht2 Hs2].
  split; [now apply Forall_app|exact Hs2].
Qed.

Lemma emits_under_when (ts : Z) (b : Analysis -> bool) (c : cmd) :
  emits_under (last_at ts) (tick_ending_at ts) c ->
  emits_under (last_at ts) (tick_ending_at ts) (when b c).
Proof.
  intros Hc s s' t. unfold when.
  destruct (b s); [apply Hc | apply emits_under_skip].
Qed.

Lemma emits_under_reset (ts : Z) : emits_under (last_at ts) (tick_ending_at ts) reset.
Proof. intros s s' t Hs [= <- <-]. split; [repeat constructor|exact Hs]. Qed.

Lemma emits_under__end_period (ts : Z) :
  emits_under (last_at ts) (tick_ending_at ts) _end_period.
Proof.
  intros s s' t Hs. rewrite _end_period_eq. intros [= <- <-].
  split; [|exact Hs]. constructor; [exact I|].
  unfold tick_calls. apply Forall_map, Forall_forall. intros cb _.
  simpl. split; [reflexivity|exact Hs].
Qed.

Lemma emits_under__begin_period (ts : Z) (k : list value) (ts' : Z) :
  emits_under (last_at ts) (tick_ending_at ts) (_begin_period k ts').
Proof.
  intros s s' t Hs. rewrite _begin_period_eq. intros [= <- <-].
  split; [repeat constructor|exact Hs].
Qed.

Create HintDb ticks.
#[local] Hint Resolve emits_under_skip emits_under_seq emits_under_when
  emits_under_reset emits_under__end_period emits_under__begin_period : ticks.
#[local] Hint Extern 1 (emits_under _ _ (modify _)) =>
  apply emits_under_modify; intros; reflexivity : ticks.

(** From a run of [c] on a state whose last event is at [ts] to the statement
    about [c], which the hint database then settles. *)
Ltac by_ticks :=
  match goal with
  | Hs : last_at ?ts ?s, H : ?c ?s = Ok (?s', ?t)
    |- Forall (tick_ending_at ?ts) ?t /\ last_at ?ts ?s' =>
      refine ((_ : emits_under (last_at ts) (tick_ending_at ts) c) s s' t Hs H);
      solve [auto 10 with ticks]
  end.

Lemma emits_under__handle_period_event (ts : Z) (ev : Event) :
  emits_under (last_at ts) (tick_ending_at ts) (_handle_period_event ev).
Proof.
  intros s s' t Hs. unfold _handle_period_event. intros H.
  repeat case_match; by_ticks.
Qed.

Lemma emits_under__check_refresh (ts : Z) (ev : Event) :
  emits_under (last_at ts) (tick_ending_at ts) (_check_refresh ev).
Proof.
  intros s s' t Hs. unfold _check_refresh. intros H.
  repeat case_match; try discriminate; by_ticks.
Qed.

Lemma emits_under_modes (ts : Z) (ev : Event) :
  emits_under (last_at ts) (tick_ending_at ts) (modes ev).
Proof.
  intros s s' t Hs. unfold modes. intros H.
  pose proof (emits_under__handle_period_event ts ev).
  pose proof (emits_under__check_refresh ts ev).
  repeat case_match; by_ticks.
Qed.

Lemma emits_under_after_advance (ts : Z) (ev : Event) (range : option TimeRange) :
  emits_under (last_at ts) (tick_ending_at ts) (after_advance ev range).
Proof.
  unfold after_advance. apply emits_under_seq; [auto 10 with ticks|].
  intros s s' t Hs H. repeat case_match; by_ticks.
Qed.

Lemma emits_under__check_analysis (ts : Z) (ev : Event) :
  emits_under (last_at ts) (tick_ending_at ts) (_check_analysis ev).
Proof.
  intros s s' t Hs. unfold _check_analysis. intros H.
  pose proof (emits_under_after_advance ts ev).
  assert (forall c, last_at ts (with_conf (set_current_ts c) s)) as Hs' by (intros; exact Hs).
  repeat case_match; try discriminate;
    match goal with
    | H : ?c (with_conf ?f s) = Ok (s', t) |- _ =>
        refine ((_ : emits_under (last_at ts) (tick_ending_at ts) c)
                  (with_conf f s) s' t Hs H);
        solve [auto 10 with ticks]
    | _ => by_ticks
    end.
Qed.

(** X23: every notification [process_event] sends while it processes an
    event is a [tick] whose [end_ns] is the timestamp of that very event,
    whichever of the range gating, the keyed periods or the refresh interval
    closes the window. *)
Theorem ticks_end_at_the_event
    (ev : Event) (s s' : Analysis) (t : list action) :
  process_event ev s = Ok (s', t) ->
  Forall (tick_ending_at (timestamp ev)) t.
Proof.
  unfold process_event, gating. intros H.
  apply seq_Ok in H as (s1 & t1 & t2 & Hg & Hm & ->).
  apply seq_Ok in Hg as (s2 & t3 & t4 & E1 & Hg & ->).
  run_branch E1. injection E1 as <- <-. simpl.
  assert (last_at (timestamp ev) (with_last_event_ts (Some (timestamp ev)) s))
    as Hs by reflexivity.
  pose proof (emits_under__check_analysis (timestamp ev) ev) as Hca.
  assert (Forall (tick_ending_at (timestamp ev)) t4 /\ last_at (timestamp ev) s1)
    as [Ht4 Hs1].
  { match goal with
    | H : ?c ?s0 = Ok (s1, t4) |- _ =>
        refine ((_ : emits_under (last_at (timestamp ev))
                       (tick_ending_at (timestamp ev)) c) s0 s1 t4 Hs H);
        solve [auto 10 with ticks]
    end. }
  apply Forall_app. split; [exact Ht4|].
  eapply emits_under_modes; eassumption.
Qed.

Lemma ticks_end_at_the_event_witness :
  Forall (tick_ending_at 25)
    [CallEndPeriodCb; CallNotification 7%nat TICK_CB (Some 10) (Some 25); CallReset].
Proof.
  refine (ticks_end_at_the_event (ev_at 25)
            (with_started true
               (with_period_start_ts (Some 10) (subscribed (conf_ranges None))))
            _ _ _).
  vm_compute. reflexivity.
Defined.

(** ** More on TimeRange *)

Lemma Py_eq_true (a b : option Z) : Py.eq a b = true <-> a = b.
Proof.
  destruct a as [x|], b as [y|]; simpl; try (split; congruence).
  rewrite Z.eqb_eq. split; congruence.
Qed.

(** X24: [==] on ranges never fails and is plain equality of the two bounds,
    [None] bounds included: two ranges are equal exactly when they are the
    same pair. *)
Theorem TimeRange_eq_is_equality (x y : TimeRange) :
  TimeRangeOps.__eq__ x y = true <-> x = y.
Proof.
  unfold TimeRangeOps.__eq__. rewrite andb_true_iff, !Py_eq_true.
  destruct x, y; simpl. split; [intros [-> ->]; reflexivity|].
  intros [= -> ->]. auto.
Qed.

Lemma Py_lt_raises (a b : option Z) (e : exn) :
  Py.lt a b = Raise e <-> e = TypeError /\ (a = None \/ b = None).
Proof.
  destruct a as [x|], b as [y|]; simpl; split;
    try discriminate; try (intros [= <-]; auto);
    try (intros [-> _]; reflexivity).
  intros [_ [?|?]]; discriminate.
Qed.

(** X25: [<] on ranges fails exactly when the first pair of bounds that
    differ holds a [None], and then with [TypeError]; in every other case it
    returns.  So ranges that share their begin, even [None], are ordered by
    their ends, and a range is never less than itself. *)
Theorem TimeRange_lt_raises_iff (x y : TimeRange) :
  (TimeRangeOps.__lt__ x y = Raise TypeError
   <-> (range_begin x <> range_begin y
        /\ (range_begin x = None \/ range_begin y = None))
       \/ (range_begin x = range_begin y
           /\ range_end x <> range_end y
           /\ (range_end x = None \/ range_end y = None)))
  /\ (forall e, TimeRangeOps.__lt__ x y = Raise e -> e = TypeError)
  /\ TimeRangeOps.__lt__ x x = Ok false.
Proof.
  unfold TimeRangeOps.__lt__.
  assert (Py.eq (range_begin x) (range_begin x) = true) as Hbb
    by now apply Py_eq_true.
  assert (Py.eq (range_end x) (range_end x) = true) as Hee
    by now apply Py_eq_true.
  split; [|split]; [| |now rewrite Hbb, Hee].
  - destruct (Py.eq (range_begin x) (range_begin y)) eqn:Hb; simpl.
    + apply Py_eq_true in Hb.
      destruct (Py.eq (range_end x) (range_end y)) eqn:He; simpl.
      * apply Py_eq_true in He. split; [discriminate|].
        intros [[? _]|[_ [? _]]]; congruence.
      * assert (range_end x <> range_end y) as Hne
          by (intros ?%Py_eq_true; congruence).
        rewrite Py_lt_raises. split; [intros [_ ?]; auto|].
        intros [[? _]|[_ [_ ?]]]; [congruence|auto].
    + assert (range_begin x <> range_begin y) as Hne
        by (intros ?%Py_eq_true; congruence).
      rewrite Py_lt_raises. split; [intros [_ ?]; auto|].
      intros [[_ ?]|[? _]]; [auto|congruence].
  - intros e.
    destruct (negb (Py.eq (range_begin x) (range_begin y)));
      [now intros [? _]%Py_lt_raises|].
    destruct (negb (Py.eq (range_end x) (range_end y)));
      [now intros [? _]%Py_lt_raises|discriminate].
Qed.

Lemma numeric_comma_free (s : string) : numeric s = true -> comma_free s = true.
Proof.
  induction s as [|c rest IH]; simpl; [reflexivity|].
  intros [Hc Hrest]%andb_true_iff. rewrite IH by exact Hrest.
  destruct (Ascii.eqb_spec c ","); [subst; discriminate|reflexivity].
Qed.

Lemma numeric_pretty_N_char (x : N) : numeric_char (pretty_N_char x) = true.
Proof.
  destruct x as [|p]; [reflexivity|].
  do 4 (try destruct p as [p|p|]); reflexivity.
Qed.

Lemma numeric_pretty_N_go (x : N) :
  forall s, numeric s = true -> numeric (pretty_N_go x s) = true.
Proof.
  induction (N.lt_wf_0 x) as [x _ IH]. intros s Hs.
  destruct (N.eq_dec x 0%N) as [->|Hx]; [exact Hs|].
  rewrite pretty_N_go_step by lia.
  apply IH; [apply N.div_lt; lia|].
  simpl. now rewrite numeric_pretty_N_char.
Qed.

Lemma numeric_pretty_Z (z : Z) : numeric (pretty z) = true.
Proof.
  destruct z as [|p|p]; [reflexivity| |];
    unfold pretty, pretty_Z, pretty, pretty_positive, pretty, pretty_N; simpl;
    now apply numeric_pretty_N_go.
Qed.

Lemma str_bound_inj (a b : option Z) : str_bound a = str_bound b -> a = b.
Proof.
  destruct a as [x|], b as [y|]; simpl; intros H.
  - f_equal. now apply (inj pretty).
  - pose proof (numeric_pretty_Z x) as Hn. rewrite H in Hn. discriminate.
  - pose proof (numeric_pretty_Z y) as Hn. rewrite <- H in Hn. discriminate.
  - reflexivity.
Qed.

Lemma comma_free_str_bound (a : option Z) : comma_free (str_bound a) = true.
Proof.
  destruct a as [x|]; [|reflexivity].
  apply numeric_comma_free, numeric_pretty_Z.
Qed.

Lemma comma_split_unique (a1 a2 b1 b2 : string) :
  comma_free a1 = true -> comma_free a2 = true ->
  a1 +:+ String "," b1 = a2 +:+ String "," b2 ->
  a1 = a2 /\ b1 = b2.
Proof.
  revert a2. induction a1 as [|c a1 IH]; intros [|d a2]; simpl.
  - intros _ _ [= ->]. auto.
  - intros _ [Hd _]%andb_true_iff [= <- _]. discriminate.
  - intros [Hc _]%andb_true_iff _ [= -> _]. discriminate.
  - intros [_ H1]%andb_true_iff [_ H2]%andb_true_iff [= -> H].
    destruct (IH a2 H1 H2 H) as [-> ->]. auto.
Qed.

(** X26: [repr] tells ranges apart: it is "[begin,end]" with [None] for a
    missing bound, and two ranges with the same [repr] have the same
    bounds. *)
Theorem TimeRange_repr_injective (x y : TimeRange) :
  TimeRange__repr__ x = TimeRange__repr__ y -> x = y.
Proof.
  unfold TimeRange__repr__. simpl. intros [= H].
  apply comma_split_unique in H as [Hb He];
    [|apply comma_free_str_bound..].
  apply str_bound_inj in Hb.
  assert (str_bound (range_end x) = str_bound (range_end y)) as He'.
  { revert He. generalize (str_bound (range_end x)) (str_bound (range_end y)).
    induction s as [|c s IH]; intros [|d s']; simpl; intros H; try reflexivity.
    - destruct s'; discriminate.
    - destruct s; discriminate.
    - injection H as -> H. f_equal. now apply IH. }
  apply str_bound_inj in He'.
  destruct x, y; simpl in *. congruence.
Qed.

Lemma TimeRange_repr_injective_witness :
  TimeRange__repr__ (mkTimeRange None (Some (-20))) = "[None,-20]"
  /\ mkTimeRange None (Some (-20)) = mkTimeRange None (Some (-20)).
Proof.
  split; [reflexivity|].
  exact (TimeRange_repr_injective _ _ eq_refl).
Defined.

(** ** The last window *)

(** X27: without a range list and without the keyed-period mode, the start
    of the period is moved to every event processed.  So the window that
    [end()] closes after the last event spans that event alone: the tick
    carries the event's timestamp as both [begin_ns] and [end_ns]; and when
    that timestamp is 0, [end()] closes nothing. *)
Theorem last_window_spans_last_event (ev : Event) (s : Analysis) :
  truthy_seq (range_ts (_conf s)) = false ->
  current_ts (_conf s) = None ->
  period_begin_ev_name (_conf s) = None ->
  exists s' t,
    process_event ev s = Ok (s', t)
    /\ _period_start_ts s' = Some (timestamp ev)
    /\ end_ s'
       = Ok (s', if timestamp ev =? 0 then []
                 else CallEndPeriodCb
                      :: map (fun cb => CallNotification cb TICK_CB
                                          (Some (timestamp ev))
                                          (Some (timestamp ev)))
                           (default [] (_notification_cbs s !! TICK_CB))).
Proof.
  intros Hranges Hcur Hbegin.
  assert (no_first_begin (_conf s) = true) as Hfirst.
  { unfold no_first_begin. destruct (range_ts (_conf s)) as [[|? ?]|];
      simpl in *; congruence. }
  destruct (process_event ev s) as [[s' t]|e] eqn:H.
  2: { destruct (process_event_without_ranges ev s Hranges) as (? & ? & ? & _).
       congruence. }
  exists s', t. split; [reflexivity|].
  assert (_period_start_ts s' = Some (timestamp ev)
          /\ _last_event_ts s' = Some (timestamp ev)
          /\ _notification_cbs s' = _notification_cbs s) as (Hstart & Hlast & Hsubs).
  { unfold process_event in H.
    apply seq_Ok in H as (s1 & t1 & t2 & Hg & Hm & _).
    assert (s1 = with_started true
                   (with_period_start_ts (Some (timestamp ev))
                      (with_last_event_ts (Some (timestamp ev)) s))) as ->.
    { revert Hg. unfold gating, seq, modify, when, skip, _check_analysis.
      simpl. rewrite Hcur, Hfirst. simpl. rewrite Hranges. simpl.
      now intros [= <- _]. }
    revert Hm. unfold modes, _check_refresh. simpl. rewrite Hbegin. simpl.
    intros Hm.
    repeat case_match; try discriminate; run_branch Hm;
      injection Hm as <- _; auto. }
  split; [exact Hstart|].
  rewrite end__eq. unfold tick_calls. rewrite Hstart, Hlast, Hsubs. simpl.
  now destruct (timestamp ev =? 0).
Qed.

Lemma last_window_spans_last_event_witness :
  exists s' t,
    process_event (ev_at 260) (subscribed (conf_refresh 100)) = Ok (s', t)
    /\ _period_start_ts s' = Some 260
    /\ end_ s' = Ok (s', [CallEndPeriodCb;
                          CallNotification 7%nat TICK_CB (Some 260) (Some 260)]).
Proof.
  exact (last_window_spans_last_event (ev_at 260) (subscribed (conf_refresh 100))
           eq_refl eq_refl eq_refl).
Defined.

(** ** Registering the per-event callbacks *)

(** X28: [_register_cbs] replaces the whole callback table, unlike the
    notification registry: after two registrations the dispatch sees the
    second table only, and a name that only the first one held gets no
    callback. *)
Theorem _register_cbs_replaces
    (m1 m2 : gmap string callback) (ev : Event) (s : Analysis) :
  (_register_cbs m1 >>> _register_cbs m2 >>> _process_event_cb ev) s
  = Ok (with_cbs m2 s,
        match spec_matching_cb m2 (name ev) with
        | Some cb => [CallEventCb cb ev]
        | None => []
        end).
Proof.
  unfold seq, _register_cbs, modify. rewrite _process_event_cb_spec. simpl.
  destruct s. reflexivity.
Qed.
